(** * Stock query agent: a shallow embedding of [lambda-src/app.py]

    Part I is the model, in the order of the Python module:
    - Python strings ([str.strip], [str.upper], [str.split]) over ASCII text
      and dictionaries in insertion order;
    - exceptions and the effect monad: a log of the calls that leave the
      process, threaded through fallible computations;
    - prices, with [round(v, 2)] and the [:.2f] format;
    - the market-data library as a value: tickers, quote fields, histories;
    - [get_realtime_stock_price], [get_historical_stock_price] and their
      wrappers, the tool registry;
    - the reasoning loop and the executor, which the source takes from the
      agent library and the specification describes;
    - [process_query];
    followed by the vocabulary of the properties and by sample data, and by
    the client of [test_api.py].

    Part II holds the lemmas and theorems, the further properties last.

    Logging ([logger.info], [print]) and the one-second [time.sleep] have no
    effect on any returned value and are left out. *)

From Stdlib Require Import List Bool Arith ZArith NArith QArith Qround Qabs.
From Stdlib Require Import Lia Lqa.
From Stdlib Require Import Ascii String DecimalString Sorted.
Import ListNotations.

Local Open Scope list_scope.
Local Open Scope string_scope.
Local Open Scope nat_scope.

(** * Part I: the model *)

(** ** Python strings

    A [str] is modelled as a [string] of ASCII characters.  Characters above
    127 are kept as they are by [upper] and are never whitespace here. *)

(** [str.isspace] on one ASCII character: TAB, LF, VT, FF, CR, the four
    separators FS, GS, RS, US, and the space. *)
Definition is_space (c : ascii) : bool :=
  let n := nat_of_ascii c in
  ((9 <=? n) && (n <=? 13)) || ((28 <=? n) && (n <=? 32)).

Fixpoint lstrip (s : string) : string :=
  match s with
  | EmptyString => EmptyString
  | String c s' => if is_space c then lstrip s' else s
  end.

Fixpoint rstrip (s : string) : string :=
  match s with
  | EmptyString => EmptyString
  | String c s' =>
      match rstrip s' with
      | EmptyString => if is_space c then EmptyString else String c EmptyString
      | r => String c r
      end
  end.

(** [s.strip()] *)
Definition strip (s : string) : string := rstrip (lstrip s).

Definition upper_char (c : ascii) : ascii :=
  let n := nat_of_ascii c in
  if (97 <=? n) && (n <=? 122) then ascii_of_nat (n - 32) else c.

(** [s.upper()] *)
Fixpoint upper (s : string) : string :=
  match s with
  | EmptyString => EmptyString
  | String c s' => String (upper_char c) (upper s')
  end.

(** [s.split(sep)] for a one-character separator: one more part than there
    are separators, empty parts included. *)
Fixpoint split (sep : ascii) (s : string) : list string :=
  match s with
  | EmptyString => [EmptyString]
  | String c s' =>
      if Ascii.eqb c sep then EmptyString :: split sep s'
      else match split sep s' with
           | [] => [String c EmptyString]
           | hd :: tl => String c hd :: tl
           end
  end.

(** Nothing but whitespace. *)
Fixpoint all_space (s : string) : bool :=
  match s with
  | EmptyString => true
  | String c s' => is_space c && all_space s'
  end.

(** Number of occurrences of a character. *)
Fixpoint count_char (sep : ascii) (s : string) : nat :=
  match s with
  | EmptyString => 0
  | String c s' => (if Ascii.eqb c sep then 1 else 0) + count_char sep s'
  end.

Definition digit_char (d : N) : ascii := ascii_of_N (48 + d).

(** Decimal rendering of a natural number, as [str(n)] and [%d] give it. *)
Definition dec_N (n : N) : string := NilEmpty.string_of_uint (N.to_uint n).

Definition dec (n : nat) : string := dec_N (N.of_nat n).

(** [w] decimal digits of [n], most significant first: [%0wd] for
    [n < 10^w]. *)
Fixpoint fixed_dec (w : nat) (n : N) : string :=
  match w with
  | 0 => EmptyString
  | S w' => fixed_dec w' (n / 10) ++ String (digit_char (n mod 10)) EmptyString
  end.

Definition is_digit (c : ascii) : bool :=
  let n := nat_of_ascii c in (48 <=? n) && (n <=? 57).

(** ** Python dictionaries

    A [dict] keeps its keys in insertion order and assigning to a key that is
    present replaces the value where the key stands. *)

Fixpoint dict_set {K V : Type} (eqb : K -> K -> bool) (k : K) (v : V)
  (d : list (K * V)) : list (K * V) :=
  match d with
  | [] => [(k, v)]
  | (k', v') :: d' =>
      if eqb k k' then (k', v) :: d' else (k', v') :: dict_set eqb k v d'
  end.

Fixpoint dict_lookup {K V : Type} (eqb : K -> K -> bool) (k : K)
  (d : list (K * V)) : option V :=
  match d with
  | [] => None
  | (k', v') :: d' => if eqb k k' then Some v' else dict_lookup eqb k d'
  end.

(** [key in d] *)
Definition dict_mem {K V : Type} (eqb : K -> K -> bool) (k : K)
  (d : list (K * V)) : bool :=
  match dict_lookup eqb k d with Some _ => true | None => false end.

(** [d.keys()] *)
Definition keys {K V : Type} (d : list (K * V)) : list K := map fst d.

(** [{kf(x): vf(x) for x in l}] *)
Definition dict_comprehension {A K V : Type} (eqb : K -> K -> bool)
  (kf : A -> K) (vf : A -> V) (l : list A) : list (K * V) :=
  fold_left (fun d x => dict_set eqb (kf x) (vf x) d) l [].

(** ** Exceptions and effects

    [LibraryError] stands for whatever a call to the market-data library or
    to the language model may raise. *)

Inductive exn : Type :=
| ValueError (msg : string)
| KeyError (key : string)
| IndexError (msg : string)
| LibraryError (msg : string)
| HTTPException (status_code : nat) (detail : string).

(** [str(e)] *)
Definition str_exn (e : exn) : string :=
  match e with
  | ValueError msg => msg
  | KeyError key => "'" ++ key ++ "'"
  | IndexError msg => msg
  | LibraryError msg => msg
  | HTTPException status_code detail => dec status_code ++ ": " ++ detail
  end.

Inductive Exc (A : Type) : Type :=
| Ok (a : A)
| Raise (e : exn).

Arguments Ok {A} a.
Arguments Raise {A} e.

(** Calls that leave the process: the market-data library and the language
    model. *)
Inductive Call : Type :=
| CallTicker (symbol : string)
| CallInfo
| CallHistory (period interval : string)
| CallOracle.

Definition is_history_call (c : Call) : bool :=
  match c with CallHistory _ _ => true | _ => false end.

Definition is_oracle_call (c : Call) : bool :=
  match c with CallOracle => true | _ => false end.

(** A computation takes the log of the calls made so far and gives a value or
    an exception, with the log extended by the calls it made. *)
Definition M (A : Type) : Type := list Call -> Exc A * list Call.

Definition ret {A : Type} (a : A) : M A := fun log => (Ok a, log).

Definition raise {A : Type} (e : exn) : M A := fun log => (Raise e, log).

Definition bind {A B : Type} (m : M A) (k : A -> M B) : M B :=
  fun log =>
    match m log with
    | (Ok a, log') => k a log'
    | (Raise e, log') => (Raise e, log')
    end.

(** [try: body / except Exception as e: handler] *)
Definition try_except {A : Type} (body : M A) (handler : exn -> M A) : M A :=
  fun log =>
    match body log with
    | (Ok a, log') => (Ok a, log')
    | (Raise e, log') => handler e log'
    end.

(** A call to the outside: logged, then its outcome. *)
Definition call {A : Type} (c : Call) (outcome : Exc A) : M A :=
  fun log => (outcome, (log ++ [c])%list).

(** A fallible built-in that makes no call. *)
Definition lift {A : Type} (r : Exc A) : M A := fun log => (r, log).

Notation "x <- m ;; k" := (bind m (fun x => k))
  (at level 61, m at next level, right associativity).

(** ** Prices

    A price is a finite [float]; it is modelled by the rational number it
    stands for.  [round(v, 2)] and the [:.2f] format both round that exact
    value to the nearest hundredth, ties to the even one.  NaN and the
    infinities are outside the model. *)

Definition round_half_even (x : Q) : Z :=
  let f := Qfloor x in
  match Qcompare (x - inject_Z f) (1 # 2) with
  | Lt => f
  | Gt => (f + 1)%Z
  | Eq => if Z.even f then f else (f + 1)%Z
  end.

Definition cents (x : Q) : Z := round_half_even (x * 100).

(** [round(v, 2)] *)
Definition round2 (x : Q) : Q := Qmake (cents x) 100.

(** [f"{x:.2f}"]: a negative value keeps its sign even when it rounds to
    zero. *)
Definition format_2f (x : Q) : string :=
  let c := Z.abs_N (cents x) in
  (match Qcompare x 0 with Lt => "-" | _ => EmptyString end)
    ++ dec_N (c / 100) ++ "." ++ fixed_dec 2 (c mod 100).

(** Truth value of [None] and of a number, as [or] tests it. *)
Definition truthy (v : option Q) : bool :=
  match v with
  | None => false
  | Some p => negb (Qnum p =? 0)%Z
  end.

(** ** The market-data library

    [yf.Ticker(symbol)] gives a handle; [stock.info] is a dictionary of
    quote fields, each a number or [None]; [stock.history(period, interval)]
    is a frame of which the model keeps the index and the [Close] column.
    Any of the three may raise. *)

Record Date : Type := { year : N; month : N; day : N }.

(** A time stamp: the calendar date and the time of day. *)
Record Timestamp : Type := { ts_date : Date; ts_time : N }.

Definition History : Type := list (Timestamp * Q).

Record Ticker : Type := {
  info : Exc (list (string * option Q));
  history : string -> string -> Exc History
}.

Definition YFinance : Type := string -> Exc Ticker.

Definition date_eqb (a b : Date) : bool :=
  ((year a =? year b) && (month a =? month b) && (day a =? day b))%N.

Definition ts_eqb (a b : Timestamp) : bool :=
  date_eqb (ts_date a) (ts_date b) && (ts_time a =? ts_time b)%N.

Definition date_ltb (a b : Date) : bool :=
  ((year a <? year b)
   || ((year a =? year b)
       && ((month a <? month b)
           || ((month a =? month b) && (day a <? day b)))))%N.

Definition ts_ltb (a b : Timestamp) : bool :=
  date_ltb (ts_date a) (ts_date b)
  || (date_eqb (ts_date a) (ts_date b) && (ts_time a <? ts_time b)%N).

Definition ts_leb (a b : Timestamp) : bool := ts_ltb a b || ts_eqb a b.

(** What [datetime.date] guarantees of its fields. *)
Definition valid_date (d : Date) : Prop :=
  (1 <= year d <= 9999 /\ 1 <= month d <= 12 /\ 1 <= day d <= 31)%N.

(** [str(d)] for a date, whose fields [datetime.date] keeps within
    [valid_date]: [YYYY-MM-DD]. *)
Definition isoformat (d : Date) : string :=
  fixed_dec 4 (year d) ++ "-" ++ fixed_dec 2 (month d) ++ "-"
    ++ fixed_dec 2 (day d).

(** [d.get(key)]: [None] when the key is absent. *)
Definition info_get (d : list (string * option Q)) (key : string) : option Q :=
  match dict_lookup String.eqb key d with
  | Some v => v
  | None => None
  end.

(** [stock.info.get(key)]: every evaluation reads the [info] property. *)
Definition stock_info_get (stock : Ticker) (key : string) : M (option Q) :=
  d <- call CallInfo (info stock) ;;
  ret (info_get d key).

(** [a or b]: [b] is evaluated only when [a] is false. *)
Definition py_or (a : M (option Q)) (b : M (option Q)) : M (option Q) :=
  x <- a ;;
  if truthy x then ret x else b.

(** [hist['Close'].iloc[-1]]: the close of the last row; [IndexError] on an
    empty frame. *)
Definition iloc_last (hist : History) : Exc Q :=
  match rev hist with
  | [] => Raise (IndexError "single positional indexer is out-of-bounds")
  | s :: _ => Ok (snd s)
  end.

Definition hist_empty (hist : History) : bool :=
  match hist with [] => true | _ => false end.

(** ** [get_realtime_stock_price] *)

Definition price_message (symbol : string) (current_price : Q) : string :=
  "Current price of " ++ symbol ++ " is $" ++ format_2f current_price.

(** Lines 65-75: the quote fields.  [Some text] stands for [return text]. *)
Definition price_from_info (stock : Ticker) (symbol : string) : M (option string) :=
  try_except
    (current_price <-
       py_or (stock_info_get stock "regularMarketPrice")
         (py_or (stock_info_get stock "currentPrice")
            (stock_info_get stock "lastPrice")) ;;
     match current_price with
     | Some p => ret (Some (price_message symbol p))
     | None => ret None
     end)
    (fun _ => ret None).

(** Lines 78-85 and 88-95: the last close of today's history. *)
Definition price_from_history (stock : Ticker) (symbol interval : string)
  : M (option string) :=
  try_except
    (hist <- call (CallHistory "1d" interval) (history stock "1d" interval) ;;
     if negb (hist_empty hist)
     then current_price <- lift (iloc_last hist) ;;
          ret (Some (price_message symbol current_price))
     else ret None)
    (fun _ => ret None).

Definition get_realtime_stock_price (yf : YFinance) (symbol : string) : M string :=
  let symbol := upper (strip symbol) in
  try_except
    (stock <- call (CallTicker symbol) (yf symbol) ;;
     r1 <- price_from_info stock symbol ;;
     match r1 with
     | Some text => ret text
     | None =>
         r2 <- price_from_history stock symbol "1m" ;;
         match r2 with
         | Some text => ret text
         | None =>
             r3 <- price_from_history stock symbol "5m" ;;
             match r3 with
             | Some text => ret text
             | None =>
                 raise (ValueError ("Could not fetch price for " ++ symbol
                                      ++ " using any method"))
             end
         end
     end)
    (fun e =>
       raise (ValueError ("Failed to fetch price for " ++ symbol ++ ": "
                            ++ str_exn e))).

Definition get_realtime_stock_price_wrapped (yf : YFinance) (input_str : string)
  : M string :=
  try_except
    (let symbol := strip input_str in
     get_realtime_stock_price yf symbol)
    (fun e => ret ("Error getting real-time price: " ++ str_exn e)).

(** ** [get_historical_stock_price] *)

(** The dictionary [result] of lines 123-133. *)
Record HistResult : Type := {
  r_symbol : string;
  r_period : string;
  r_interval : string;
  data_points : nat;
  first_date : string;
  last_date : string;
  first_price : Q;
  last_price : Q;
  data : list (string * Q)
}.

(** [hist['Close'].to_dict()]: the index as keys, in the order of the rows;
    a time stamp that comes again overwrites the value of the first. *)
Definition to_dict (hist : History) : list (Timestamp * Q) :=
  dict_comprehension ts_eqb fst snd hist.

(** [{str(k.date()): round(v, 2) for k, v in data.items()}] *)
Definition format_data (data : list (Timestamp * Q)) : list (string * Q) :=
  dict_comprehension String.eqb
    (fun kv => isoformat (ts_date (fst kv))) (fun kv => round2 (snd kv)) data.

(** [min(keys)]: the first of the least elements. *)
Definition py_min (l : list string) : Exc string :=
  match l with
  | [] => Raise (ValueError "min() arg is an empty sequence")
  | x :: l' => Ok (fold_left (fun m y => if String.ltb y m then y else m) l' x)
  end.

(** [max(keys)]: the first of the greatest elements. *)
Definition py_max (l : list string) : Exc string :=
  match l with
  | [] => Raise (ValueError "max() arg is an empty sequence")
  | x :: l' => Ok (fold_left (fun m y => if String.ltb m y then y else m) l' x)
  end.

(** [d[key]] *)
Definition dict_getitem (d : list (string * Q)) (key : string) : Exc Q :=
  match dict_lookup String.eqb key d with
  | Some v => Ok v
  | None => Raise (KeyError key)
  end.

Definition no_data_message (symbol period interval : string) : string :=
  "No historical data available for " ++ symbol ++ " with period " ++ period
    ++ " and interval " ++ interval.

(** [json_dumps] stands for [json.dumps(_, indent=2)] of the standard
    library. *)
Definition get_historical_stock_price (yf : YFinance)
  (json_dumps : HistResult -> string) (symbol period interval : string)
  : M string :=
  try_except
    (stock <- call (CallTicker symbol) (yf symbol) ;;
     hist <- call (CallHistory period interval) (history stock period interval) ;;
     if hist_empty hist
     then raise (ValueError (no_data_message symbol period interval))
     else
       let data := to_dict hist in
       let formatted_data := format_data data in
       first_date <- lift (py_min (keys formatted_data)) ;;
       last_date <- lift (py_max (keys formatted_data)) ;;
       k_min <- lift (py_min (keys formatted_data)) ;;
       first_price <- lift (dict_getitem formatted_data k_min) ;;
       k_max <- lift (py_max (keys formatted_data)) ;;
       last_price <- lift (dict_getitem formatted_data k_max) ;;
       let result :=
         {| r_symbol := upper symbol;
            r_period := period;
            r_interval := interval;
            data_points := List.length formatted_data;
            first_date := first_date;
            last_date := last_date;
            first_price := first_price;
            last_price := last_price;
            data := formatted_data |} in
       ret (json_dumps result))
    (fun e => raise e).

(** The error of [a, b, c = parts] when [parts] has not three elements. *)
Definition unpack_error (expected got : nat) : exn :=
  if got <? expected
  then ValueError ("not enough values to unpack (expected " ++ dec expected
                     ++ ", got " ++ dec got ++ ")")
  else ValueError ("too many values to unpack (expected " ++ dec expected ++ ")").

Definition get_historical_stock_price_wrapped (yf : YFinance)
  (json_dumps : HistResult -> string) (input_str : string) : M string :=
  try_except
    (match split "," input_str with
     | [symbol; period; interval] =>
         get_historical_stock_price yf json_dumps
           (strip symbol) (strip period) (strip interval)
     | parts => raise (unpack_error 3 (List.length parts))
     end)
    (fun e => ret ("Error parsing input: " ++ str_exn e)).

(** ** The tool registry *)

Record Tool : Type := {
  name : string;
  func : string -> M string;
  description : string
}.

Definition tools (yf : YFinance) (json_dumps : HistResult -> string) : list Tool :=
  [ {| name := "get_realtime_stock_price";
       func := get_realtime_stock_price_wrapped yf;
       description := "Get the current stock price for a given symbol. Input should be a stock symbol like 'AAPL' or 'MSFT'" |};
    {| name := "get_historical_stock_price";
       func := get_historical_stock_price_wrapped yf json_dumps;
       description := "Get historical stock prices. Input format: 'AAPL,1mo,1d'" |} ].

Fixpoint find_tool (registry : list Tool) (action_name : string) : option Tool :=
  match registry with
  | [] => None
  | t :: registry' =>
      if String.eqb (name t) action_name then Some t
      else find_tool registry' action_name
  end.

(** ** The reasoning loop

    Lines 182-190 create the agent and its executor from the agent library
    with [max_iterations=5] and [handle_parsing_errors=True]; the loop itself
    is the library's and is described by section 4.3 of the specification. *)

(** Modelled from the spec: an entry of the step history (AgentStep of
    section 3), the executor's code being absent: a tool call with its
    observation, or an oracle output that was rejected and is shown back to
    the oracle. *)
Inductive AgentStep : Type :=
| ToolStep (thought action_name action_input observation : string)
| ParsingErrorStep (oracle_output : string).

(** Modelled from the spec: what the grammar makes of an oracle output
    (section 9: FinalAnswer, Action or ParseError), the library's output
    parser being absent. *)
Inductive ParsedOutput : Type :=
| FinalAnswer (answer : string)
| Action (thought action_name action_input : string)
| Malformed.

(** Modelled from the spec: the terminal outcome of a run (AgentResult of
    section 3), the executor's code being absent. *)
Inductive AgentResult : Type :=
| final_answer (answer : string)
| failure_reason (reason : string).

(** Modelled from the spec: the oracle of section 6, the language model
    being outside the repository.  It sees the question and the step history
    (the prompt of lines 160-178 is made of nothing else that varies) and
    may fail. *)
Definition Oracle : Type := string -> list AgentStep -> Exc string.

(** Line 187. *)
Definition max_iterations : nat := 5.

(** Modelled from the spec: the state machine of section 4.3, the executor's
    code being absent.  [budget] is the number of iterations left; THINKING
    asks the oracle, a Final Answer ends in DONE, an action naming a
    registered tool is run and observed, anything else is recorded as a
    parsing error, and the run ends in FAILED when the budget is used up. *)
Fixpoint reasoning_loop (registry : list Tool) (oracle : Oracle)
  (parse : string -> ParsedOutput) (budget : nat) (query : string)
  (steps : list AgentStep) : M (AgentResult * list AgentStep) :=
  match budget with
  | 0 => ret (failure_reason "max iterations exceeded", steps)
  | S budget' =>
      output <- call CallOracle (oracle query steps) ;;
      match parse output with
      | FinalAnswer answer => ret (final_answer answer, steps)
      | Action thought action_name action_input =>
          match find_tool registry action_name with
          | Some tool =>
              observation <- func tool action_input ;;
              reasoning_loop registry oracle parse budget' query
                (steps ++ [ToolStep thought action_name action_input observation])%list
          | None =>
              reasoning_loop registry oracle parse budget' query
                (steps ++ [ParsingErrorStep output])%list
          end
      | Malformed =>
          reasoning_loop registry oracle parse budget' query
            (steps ++ [ParsingErrorStep output])%list
      end
  end.

(** Values held by the dictionaries that cross the executor's boundary. *)
Inductive PyVal : Type :=
| VStr (s : string)
| VSteps (steps : list AgentStep).

Definition PyDict : Type := list (string * PyVal).

(** The built-in [repr], on a value and on a dictionary. *)
Record Builtins : Type := {
  repr_value : PyVal -> string;
  repr_dict : PyDict -> string
}.

(** [str(v)]: a string is itself, a container is its [repr]. *)
Definition py_str (py : Builtins) (v : PyVal) : string :=
  match v with
  | VStr s => s
  | _ => repr_value py v
  end.

(** [d[key]] *)
Definition pydict_getitem (d : PyDict) (key : string) : Exc PyVal :=
  match dict_lookup String.eqb key d with
  | Some v => Ok v
  | None => Raise (KeyError key)
  end.

(** Modelled from the spec: [agent_executor.invoke], the executor's code
    being absent.  Section 4.4 maps [final_answer] to the response and
    [failure_reason] to an error text; [process_query] reads them under the
    keys [output] and [error]. *)
Definition agent_executor_invoke (yf : YFinance)
  (json_dumps : HistResult -> string) (oracle : Oracle)
  (parse : string -> ParsedOutput) (inputs : PyDict) : M PyDict :=
  match dict_lookup String.eqb "input" inputs with
  | Some (VStr input) =>
      run <- reasoning_loop (tools yf json_dumps) oracle parse max_iterations
               input [] ;;
      match fst run with
      | final_answer answer =>
          ret (inputs ++ [("output", VStr answer);
                          ("intermediate_steps", VSteps (snd run))])%list
      | failure_reason reason =>
          ret (inputs ++ [("error", VStr reason);
                          ("intermediate_steps", VSteps (snd run))])%list
      end
  | _ => raise (KeyError "input")
  end.

(** ** [process_query] *)

Record Query : Type := { text : string }.

(** Lines 196-214.  [py] stands for the built-in [repr], [invoke] for
    [agent_executor.invoke]. *)
Definition process_query (py : Builtins) (invoke : PyDict -> M PyDict)
  (query : Query) : M PyDict :=
  try_except
    (response <- invoke [("input", VStr (text query))] ;;
     if dict_mem String.eqb "output" response then
       v <- lift (pydict_getitem response "output") ;;
       ret [("response", v)]
     else if dict_mem String.eqb "error" response then
       v <- lift (pydict_getitem response "error") ;;
       ret [("response", VStr ("Error: " ++ py_str py v))]
     else
       ret [("response", VStr (repr_dict py response))])
    (fun e => raise (HTTPException 500 (str_exn e))).

(** The service: [process_query] over the executor. *)
Definition handle (yf : YFinance) (json_dumps : HistResult -> string)
  (py : Builtins) (oracle : Oracle) (parse : string -> ParsedOutput)
  (query_text : string) : M PyDict :=
  process_query py (agent_executor_invoke yf json_dumps oracle parse)
    {| text := query_text |}.

(** * Vocabulary of the properties *)

(** ** The quote fields, as the specification words them *)

Definition candidate_fields : list string :=
  ["regularMarketPrice"; "currentPrice"; "lastPrice"].

(** The first candidate field that holds a value ("first non-null wins"). *)
Fixpoint first_non_null (d : list (string * option Q)) (fields : list string)
  : option Q :=
  match fields with
  | [] => None
  | f :: fields' =>
      match info_get d f with
      | Some p => Some p
      | None => first_non_null d fields'
      end
  end.

(** The first candidate field that holds a value other than zero. *)
Fixpoint first_nonzero (d : list (string * option Q)) (fields : list string)
  : option Q :=
  match fields with
  | [] => None
  | f :: fields' =>
      if truthy (info_get d f) then info_get d f else first_nonzero d fields'
  end.

(** No call in [calls] asks for a history. *)
Definition no_history_call (calls : list Call) : Prop :=
  existsb is_history_call calls = false.

(** The tier-1 property with "non-null" as the test of a candidate field. *)
Definition quote_short_circuit_as_stated : Prop :=
  forall (yf : YFinance) (symbol : string) (stock : Ticker)
         (fields : list (string * option Q)) (p : Q) (log : list Call),
    yf (upper (strip symbol)) = Ok stock ->
    info stock = Ok fields ->
    first_non_null fields candidate_fields = Some p ->
    exists calls,
      get_realtime_stock_price yf symbol log
      = (Ok (price_message (upper (strip symbol)) p), (log ++ calls)%list)
      /\ no_history_call calls.

(** The quote lookup raises, or every candidate field is null or absent. *)
Definition quote_unavailable (stock : Ticker) : Prop :=
  (exists e, info stock = Raise e)
  \/ (exists fields, info stock = Ok fields
        /\ forall f, In f candidate_fields -> info_get fields f = None).

(** Today's history at [interval] raises or is empty. *)
Definition history_unavailable (stock : Ticker) (interval : string) : Prop :=
  (exists e, history stock "1d" interval = Raise e)
  \/ history stock "1d" interval = Ok [].

Definition unavailable_message (symbol : string) : string :=
  "Failed to fetch price for " ++ symbol ++ ": Could not fetch price for "
    ++ symbol ++ " using any method".

(** ** Properties of computations *)

(** [m] only appends to the log, and appends no oracle call. *)
Definition quiet {A : Type} (m : M A) : Prop :=
  forall log, exists calls,
    snd (m log) = (log ++ calls)%list /\ existsb is_oracle_call calls = false.

(** [m] never raises. *)
Definition total {A : Type} (m : M A) : Prop :=
  forall log, exists a, fst (m log) = Ok a.

(** The handler of [get_historical_stock_price_wrapped]. *)
Definition parsing_error_text (e : exn) : string :=
  "Error parsing input: " ++ str_exn e.

(** ** Properties of runs *)

(** Number of oracle calls in a log. *)
Definition oracle_calls (calls : list Call) : nat :=
  List.length (filter is_oracle_call calls).

(** What a run that started from [steps0] with [n] iterations left and made
    [calls] may end in: an answer the oracle gave before the budget was used
    up, the failure after exactly [n] further steps, or a fault of the
    oracle. *)
Definition run_outcome (oracle : Oracle) (parse : string -> ParsedOutput)
  (query : string) (steps0 : list AgentStep) (n : nat) (calls : list Call)
  (r : Exc (AgentResult * list AgentStep)) : Prop :=
  match r with
  | Ok (final_answer a, steps) =>
      (exists output, oracle query steps = Ok output /\ parse output = FinalAnswer a)
      /\ List.length steps < List.length steps0 + n
  | Ok (failure_reason reason, steps) =>
      reason = "max iterations exceeded"
      /\ List.length steps = List.length steps0 + n
      /\ oracle_calls calls = n
  | Raise e => exists steps, oracle query steps = Raise e
  end.

(** The oracle answers every prompt and never with a Final Answer. *)
Definition never_answers (oracle : Oracle) (parse : string -> ParsedOutput)
  (query : string) : Prop :=
  forall steps, exists output,
    oracle query steps = Ok output /\ forall a, parse output <> FinalAnswer a.

(** An output that the loop treats as a parsing error: bad grammar, or an
    action whose tool is not registered. *)
Definition rejected (registry : list Tool) (parse : string -> ParsedOutput)
  (output : string) : Prop :=
  parse output = Malformed
  \/ exists thought action_name action_input,
       parse output = Action thought action_name action_input
       /\ find_tool registry action_name = None.

(** ** Time series *)

Definition sample_date (s : Timestamp * Q) : Date := ts_date (fst s).

(** The rows come in the order of their time stamps. *)
Definition chronological (hist : History) : Prop :=
  StronglySorted (fun a b => ts_leb (fst a) (fst b) = true) hist.

Definition valid_history (hist : History) : Prop :=
  Forall (fun s => valid_date (sample_date s)) hist.

Definition Date_eq_dec (a b : Date) : {a = b} + {a <> b}.
Proof. decide equality; apply N.eq_dec. Defined.

(** The calendar dates of the series, each once. *)
Definition distinct_dates (hist : History) : list Date :=
  nodup Date_eq_dec (map sample_date hist).

(** Order of the calendar. *)
Definition date_compare (a b : Date) : comparison :=
  match (year a ?= year b)%N with
  | Eq => match (month a ?= month b)%N with
          | Eq => (day a ?= day b)%N
          | c => c
          end
  | c => c
  end.

(** Four digits, a hyphen, two digits, a hyphen, two digits. *)
Definition iso_shape (s : string) : bool :=
  match list_ascii_of_string s with
  | [y1; y2; y3; y4; h1; m1; m2; h2; d1; d2] =>
      forallb is_digit [y1; y2; y3; y4; m1; m2; d1; d2]
      && Ascii.eqb h1 "-" && Ascii.eqb h2 "-"
  | _ => false
  end.

(** A price with two decimal places: a whole number of hundredths. *)
Definition two_decimals (v : Q) : Prop := exists c : Z, v = Qmake c 100.





(** The last element of [l] that satisfies [p]. *)
Fixpoint find_last {A : Type} (p : A -> bool) (l : list A) : option A :=
  match l with
  | [] => None
  | x :: l' =>
      match find_last p l' with
      | Some y => Some y
      | None => if p x then Some x else None
      end
  end.

(** The last row of the series that falls on the date [d]. *)
Definition last_sample_on (d : Date) (hist : History) : option (Timestamp * Q) :=
  find_last (fun s => date_eqb d (sample_date s)) hist.

(** Keys in strictly increasing order, for an order given by [ltb]. *)
Definition increasing {K : Type} (ltb : K -> K -> bool) (l : list K) : Prop :=
  StronglySorted (fun a b => ltb a b = true) l.

(** Elements whose keys never decrease. *)
Definition nondecreasing {A K : Type} (ltb : K -> K -> bool) (kf : A -> K)
  (l : list A) : Prop :=
  StronglySorted (fun a b => ltb (kf a) (kf b) = true \/ kf a = kf b) l.

(** A series in the order of its time stamps, or one in which no time stamp
    comes twice. *)
Definition ordered_or_distinct (hist : History) : Prop :=
  chronological hist \/ NoDup (map fst hist).

(** ** Sample data *)

Definition ts (y m d t : N) : Timestamp :=
  {| ts_date := {| year := y; month := m; day := d |}; ts_time := t |}.

Definition ticker_of (fields : list (string * option Q)) (hist : History) : Ticker :=
  {| info := Ok fields; history := fun _ _ => Ok hist |}.

Definition yf_of (stock : Ticker) : YFinance := fun _ => Ok stock.

(** A ticker with a live quote and no history. *)
Definition quoted_ticker : Ticker :=
  ticker_of [("currentPrice", Some (15025 # 100))] [].

(** A ticker whose first candidate field is zero. *)
Definition zero_first_ticker : Ticker :=
  ticker_of [("regularMarketPrice", Some 0%Q); ("currentPrice", Some (125 # 10))] [].

(** A ticker whose only quote is a zero regularMarketPrice, with two
    one-minute closes. *)
Definition zero_only_ticker : Ticker :=
  ticker_of [("regularMarketPrice", Some 0%Q)]
    [(ts 2024 1 2 34200, 1855 # 10); (ts 2024 1 2 34260, 185567 # 1000)].

(** A ticker for which the library raises or has nothing. *)
Definition silent_ticker : Ticker :=
  {| info := Raise (LibraryError "404");
     history := fun _ interval =>
       if String.eqb interval "1m" then Ok [] else Raise (LibraryError "timeout") |}.

(** Daily closes, each a value that a [float] holds exactly (a whole number
    of eighths), and closes every few hours over two days. *)
Definition daily_history : History :=
  [(ts 2024 1 2 0, 185625 # 1000); (ts 2024 1 3 0, 18425 # 100);
   (ts 2024 1 4 0, 181875 # 1000)].

Definition intraday_history : History :=
  [(ts 2024 1 2 34200, 1855 # 10); (ts 2024 1 2 37800, 186 # 1);
   (ts 2024 1 3 34200, 18425 # 100); (ts 2024 1 3 37800, 184333 # 1000)].

Definition show_result (r : HistResult) : string :=
  r_symbol r ++ " " ++ first_date r ++ ".." ++ last_date r ++ " "
    ++ dec (data_points r).

Definition yf_daily : YFinance := yf_of (ticker_of [] daily_history).

Definition yf_empty : YFinance := yf_of (ticker_of [] []).

Definition yf_intraday : YFinance := yf_of (ticker_of [] intraday_history).

(** A series out of order in which a time stamp comes twice. *)
Definition shuffled_history : History :=
  [(ts 2024 1 2 37800, 186 # 1); (ts 2024 1 2 34200, 1855 # 10);
   (ts 2024 1 2 37800, 187 # 1)].

(** ** A parser and oracles to run the loop on *)

Definition text_after (i : nat) (s : string) : string :=
  substring i (String.length s - i) s.

(** Modelled from the spec: a grammar for the format that the prompt of
    lines 167-175 asks of the oracle, the agent library's parser being
    absent.  An output with [Final Answer:] is a final answer; otherwise one
    with [Action:] followed by [Action Input:] is an action; anything else is
    malformed. *)
Definition react_parse (output : string) : ParsedOutput :=
  match index 0 "Final Answer:" output with
  | Some i => FinalAnswer (strip (text_after (i + 13) output))
  | None =>
      match index 0 "Action:" output, index 0 "Action Input:" output with
      | Some i, Some j =>
          if i + 7 <=? j
          then Action (strip (substring 0 i output))
                 (strip (substring (i + 7) (j - (i + 7)) output))
                 (strip (text_after (j + 13) output))
          else Malformed
      | _, _ => Malformed
      end
  end.

Definition nl : string := String (ascii_of_nat 10) EmptyString.

(** An oracle that never reaches an answer. *)
Definition oracle_rambling : Oracle := fun _ _ => Ok "Let me think about it.".

(** An oracle whose first output is malformed and whose second is a final
    answer. *)
Definition oracle_recovering : Oracle :=
  fun _ steps =>
    match steps with
    | [] => Ok "I will look it up"
    | _ => Ok ("Thought: I now know the final answer" ++ nl
                 ++ "Final Answer: I could not find a price.")
    end.

(** An oracle that names a tool that is not registered, then answers. *)
Definition oracle_wrong_tool : Oracle :=
  fun _ steps =>
    match steps with
    | [] => Ok ("Thought: search the web" ++ nl ++ "Action: web_search" ++ nl
                  ++ "Action Input: AAPL price")
    | _ => Ok "Final Answer: no such tool."
    end.

(** An oracle that asks for the price of AAPL and repeats the observation. *)
Definition oracle_price : Oracle :=
  fun _ steps =>
    match steps with
    | [] => Ok ("Thought: I need the current price" ++ nl
                  ++ "Action: get_realtime_stock_price" ++ nl
                  ++ "Action Input: AAPL")
    | ToolStep _ _ _ observation :: _ => Ok ("Final Answer: " ++ observation)
    | _ => Raise (LibraryError "throttled")
    end.

(** An oracle that cannot be reached. *)
Definition oracle_down : Oracle :=
  fun _ _ => Raise (LibraryError "Could not connect to the endpoint").

Definition py_sample : Builtins :=
  {| repr_value := fun _ => "[...]"; repr_dict := fun _ => "{...}" |}.

(** An executor that only reports an error. *)
Definition invoke_error : PyDict -> M PyDict :=
  fun inputs => ret (inputs ++ [("error", VStr "quota exceeded")])%list.

(** * The client of [test_api.py]

    [requests.post] is the world of the client: it raises, or gives a
    response whose [raise_for_status] and [json] may raise in turn.  An
    exception is a [RequestException] (or one of its subclasses) or of
    another class.  Printing is left out. *)

Inductive client_exn : Type :=
| RequestException (msg : string)
| OtherException (msg : string).

Inductive Outcome (A : Type) : Type :=
| Returned (a : A)
| Raised (e : client_exn).

Arguments Returned {A} a.
Arguments Raised {A} e.

Record Response : Type := {
  raise_for_status : option client_exn;
  json : Outcome PyDict
}.

(** [requests.post(endpoint, json={"text": query}, headers=...)] *)
Definition Requests : Type := string -> string -> Outcome Response.

(** Lines 19-35 of [test_api.py]: the body of the [try]. *)
Definition send_query (post : Requests) (endpoint query : string)
  : Outcome PyDict :=
  match post endpoint query with
  | Raised e => Raised e
  | Returned response =>
      match raise_for_status response with
      | Some e => Raised e
      | None => json response
      end
  end.

(** Lines 8-40 of [test_api.py]. *)
Definition test_stock_api (post : Requests) (endpoint query : string)
  : Outcome PyDict :=
  match send_query post endpoint query with
  | Raised (RequestException msg) => Returned [("error", VStr msg)]
  | outcome => outcome
  end.

(** * Further vocabulary *)

(** ** The tiers of the real-time price *)

(** The quote fields give no price: reading them raises, or
    regularMarketPrice and currentPrice are null or zero and lastPrice is
    null. *)
Definition quote_silent (stock : Ticker) : Prop :=
  (exists e, info stock = Raise e)
  \/ (exists fields, info stock = Ok fields
        /\ truthy (info_get fields "regularMarketPrice") = false
        /\ truthy (info_get fields "currentPrice") = false
        /\ info_get fields "lastPrice" = None).

(** How often [stock.info] is read by lines 66-70: the chain stops at the
    first field that is neither null nor zero, and a read that raises is the
    last. *)
Definition quote_calls (stock : Ticker) : list Call :=
  match info stock with
  | Raise _ => [CallInfo]
  | Ok fields =>
      if truthy (info_get fields "regularMarketPrice") then [CallInfo]
      else if truthy (info_get fields "currentPrice") then [CallInfo; CallInfo]
      else [CallInfo; CallInfo; CallInfo]
  end.

(** The value of the chain of lines 66-70, [None] when reading raises. *)
Definition quote_value (stock : Ticker) : option Q :=
  match info stock with
  | Raise _ => None
  | Ok fields =>
      if truthy (info_get fields "regularMarketPrice")
      then info_get fields "regularMarketPrice"
      else if truthy (info_get fields "currentPrice")
           then info_get fields "currentPrice"
           else info_get fields "lastPrice"
  end.

(** The close of the last row of a history, [None] when the call raised or
    the frame is empty. *)
Definition last_close (outcome : Exc History) : option Q :=
  match outcome with
  | Raise _ => None
  | Ok hist =>
      match rev hist with
      | [] => None
      | s :: _ => Some (snd s)
      end
  end.

Definition fetch_error_message (symbol : string) (cause : string) : string :=
  "Failed to fetch price for " ++ symbol ++ ": " ++ cause.

(** The calls of one run of [get_realtime_stock_price] after the ticker was
    made: the reads of the quote fields, then the histories asked for. *)
Definition history_1m : Call := CallHistory "1d" "1m".

Definition history_5m : Call := CallHistory "1d" "5m".

(** No comma in a text. *)
Definition comma_free (s : string) : Prop := count_char "," s = 0.

(** The elements of a list in the order in which each first occurs. *)
Fixpoint first_occurrences {A : Type} (eqb : A -> A -> bool) (l : list A)
  : list A :=
  match l with
  | [] => []
  | x :: l' => x :: filter (fun y => negb (eqb x y)) (first_occurrences eqb l')
  end.

(** The ISO text of the date of a row. *)
Definition sample_key_text (s : Timestamp * Q) : string :=
  isoformat (sample_date s).

(** ** Further sample data *)

(** A ticker without quote whose one-minute history raises and whose
    five-minute history has two closes. *)
Definition five_minute_ticker : Ticker :=
  {| info := Ok [("regularMarketPrice", None); ("currentPrice", Some 0%Q)];
     history := fun _ interval =>
       if String.eqb interval "5m"
       then Ok [(ts 2024 1 2 34200, 1855 # 10); (ts 2024 1 2 34500, 185999 # 1000)]
       else Raise (LibraryError "rate limited") |}.

(** A library that knows no ticker. *)
Definition yf_down : YFinance := fun _ => Raise (LibraryError "No connection").

(** A ticker whose history cannot be read. *)
Definition unreadable_ticker : Ticker :=
  {| info := Ok []; history := fun _ _ => Raise (LibraryError "bad period") |}.

(** A server that cannot be reached, one that answers with a status that
    [raise_for_status] rejects, and one that answers. *)
Definition post_unreachable : Requests :=
  fun _ _ => Raised (RequestException "Connection refused").

Definition post_rejected : Requests :=
  fun _ _ =>
    Returned {| raise_for_status := Some (RequestException "500 Server Error");
                json := Returned [("detail", VStr "boom")] |}.

Definition post_answering : Requests :=
  fun _ query =>
    Returned {| raise_for_status := None;
                json := Returned [("response", VStr ("You asked: " ++ query))] |}.

(** Rows that do not come in the order of their dates. *)
Definition unordered_history : History :=
  [(ts 2024 1 4 0, 181915 # 1000); (ts 2024 1 2 0, 185644 # 1000);
   (ts 2024 1 4 3600, 182 # 1); (ts 2024 1 3 0, 18425 # 100)].

(** * Part II: lemmas and theorems *)

(** ** Strings *)

Lemma split_nonempty (sep : ascii) (s : string) : split sep s <> [].
Proof.
  induction s as [|c s IH]; simpl; [discriminate|].
  destruct (Ascii.eqb c sep); [discriminate|].
  destruct (split sep s); discriminate.
Qed.

Lemma split_length (sep : ascii) (s : string) :
  List.length (split sep s) = S (count_char sep s).
Proof.
  induction s as [|c s IH]; simpl; [reflexivity|].
  destruct (Ascii.eqb c sep); simpl.
  - now rewrite IH.
  - destruct (split sep s) eqn:E; [now apply split_nonempty in E|].
    simpl in *. exact IH.
Qed.

Lemma lstrip_decompose (s : string) :
  exists pre, all_space pre = true /\ s = pre ++ lstrip s.
Proof.
  induction s as [|c s [pre [Hp E]]]; simpl.
  - now exists EmptyString.
  - destruct (is_space c) eqn:Hc.
    + exists (String c pre). simpl. rewrite Hc, Hp. split; [reflexivity|].
      now rewrite <- E.
    + now exists EmptyString.
Qed.

Lemma lstrip_head (s : string) (c : ascii) (s' : string) :
  lstrip s = String c s' -> is_space c = false.
Proof.
  induction s as [|a s IH]; simpl; [discriminate|].
  destruct (is_space a) eqn:Ha; [exact IH|]. now intros [= <- _].
Qed.

Lemma rstrip_decompose (s : string) :
  exists post, all_space post = true /\ s = rstrip s ++ post.
Proof.
  induction s as [|c s [post [Hp E]]]; simpl.
  - now exists EmptyString.
  - destruct (rstrip s) as [|a r] eqn:Hr.
    + simpl in E. subst post. destruct (is_space c) eqn:Hc.
      * exists (String c s). simpl. now rewrite Hc, Hp.
      * now exists s.
    + exists post. split; [exact Hp|]. simpl. now rewrite E at 1.
Qed.

Lemma rstrip_head (s : string) (c : ascii) (s' : string) :
  rstrip s = String c s' -> exists s'', s = String c s''.
Proof.
  destruct s as [|a s]; simpl; [discriminate|].
  destruct (rstrip s); [destruct (is_space a); [discriminate|]|];
    intros [= <- _]; now exists s.
Qed.

(** [strip] takes whitespace off both ends and leaves a text that does not
    start with whitespace. *)
Lemma strip_decompose (s : string) :
  exists pre post,
    all_space pre = true /\ all_space post = true
    /\ s = pre ++ strip s ++ post.
Proof.
  destruct (lstrip_decompose s) as [pre [Hpre E1]].
  destruct (rstrip_decompose (lstrip s)) as [post [Hpost E2]].
  exists pre, post. unfold strip. now rewrite <- E2.
Qed.

Lemma strip_head (s : string) (c : ascii) (s' : string) :
  strip s = String c s' -> is_space c = false.
Proof.
  unfold strip. intro H. apply rstrip_head in H. destruct H as [s'' H].
  now apply lstrip_head in H.
Qed.

Lemma upper_char_idempotent (c : ascii) : upper_char (upper_char c) = upper_char c.
Proof. destruct c as [[] [] [] [] [] [] [] []]; reflexivity. Qed.

Lemma upper_idempotent (s : string) : upper (upper s) = upper s.
Proof.
  induction s as [|c s IH]; simpl; [reflexivity|].
  now rewrite upper_char_idempotent, IH.
Qed.

Example strip_upper_example : upper (strip "  brk.b	 ") = "BRK.B".
Proof. reflexivity. Qed.

Example split_example :
  split "," "AAPL,1mo,1d" = ["AAPL"; "1mo"; "1d"]
  /\ split "," EmptyString = [EmptyString]
  /\ split "," "a,,b," = ["a"; EmptyString; "b"; EmptyString].
Proof. repeat split. Qed.

Example dec_example :
  dec 0 = "0" /\ dec 1204 = "1204" /\ fixed_dec 4 33 = "0033".
Proof. repeat split. Qed.

Lemma is_digit_digit_char (k : N) : (k < 10)%N -> is_digit (digit_char k) = true.
Proof.
  intro H. unfold is_digit, digit_char, nat_of_ascii.
  rewrite N_ascii_embedding by lia.
  apply andb_true_iff. split; apply Nat.leb_le; lia.
Qed.

(** ** Prices *)

Lemma round_half_even_nearest (x : Q) :
  (Qabs (x - inject_Z (round_half_even x)) <= 1 # 2)%Q.
Proof.
  unfold round_half_even.
  pose proof (Qfloor_le x) as Hl. pose proof (Qlt_floor x) as Hu.
  rewrite inject_Z_plus in Hu. change (inject_Z 1) with 1%Q in Hu.
  apply Qabs_Qle_condition.
  destruct (Qcompare_spec (x - inject_Z (Qfloor x)) (1 # 2)) as [E|L|G].
  - destruct (Z.even (Qfloor x)).
    + split; lra.
    + rewrite inject_Z_plus. change (inject_Z 1) with 1%Q. split; lra.
  - split; lra.
  - rewrite inject_Z_plus. change (inject_Z 1) with 1%Q. split; lra.
Qed.

(** [round(v, 2)] is a whole number of hundredths, half a hundredth away
    from [v] at most. *)
Lemma round2_nearest (x : Q) :
  two_decimals (round2 x) /\ (Qabs (x - round2 x) <= 1 # 200)%Q.
Proof.
  split; [now exists (cents x)|].
  pose proof (round_half_even_nearest (x * 100)) as H.
  apply Qabs_Qle_condition in H. apply Qabs_Qle_condition.
  unfold round2, cents.
  assert (E : (Qmake (round_half_even (x * 100)) 100
               == inject_Z (round_half_even (x * 100)) * (1 # 100))%Q).
  { unfold Qeq, Qmult, inject_Z. simpl. lia. }
  rewrite E. clear E. revert H.
  generalize (inject_Z (round_half_even (x * 100))). intros q H. split; lra.
Qed.

(** The [:.2f] format ends with a point and two digits. *)
Lemma format_2f_shape (x : Q) :
  exists sign whole d1 d2,
    format_2f x = sign ++ whole ++ "." ++ String d1 (String d2 EmptyString)
    /\ is_digit d1 = true /\ is_digit d2 = true.
Proof.
  unfold format_2f. cbn [fixed_dec append]. do 4 eexists.
  split; [reflexivity|].
  split; apply is_digit_digit_char; apply N.mod_lt; lia.
Qed.

Example format_2f_example :
  format_2f (15025 # 100) = "150.25" /\ format_2f (125 # 10) = "12.50"
  /\ format_2f (2675 # 1000) = "2.68" /\ format_2f (2665 # 1000) = "2.66"
  /\ format_2f (- (1 # 1000)) = "-0.00" /\ format_2f 0 = "0.00".
Proof. repeat split. Qed.

Example round2_example :
  round2 (185644 # 1000) = (18564 # 100)%Q /\ round2 (1 # 3) = (33 # 100)%Q.
Proof. split; reflexivity. Qed.

(** ** Running a computation *)

Lemma truthy_Some (v : option Q) : truthy v = true -> exists p, v = Some p.
Proof. destruct v as [p|]; [now exists p|discriminate]. Qed.

Lemma existsb_history_app (l1 l2 : list Call) :
  existsb is_history_call (l1 ++ l2) = existsb is_history_call l1 || existsb is_history_call l2.
Proof. apply existsb_app. Qed.

(** ** The real-time price *)

(** C1 (amended): when one of the candidate fields regularMarketPrice,
    currentPrice, lastPrice holds a value that is neither null nor zero,
    [get_realtime_stock_price] returns the first such value, rendered to two
    decimal places and paired with the trimmed, uppercased symbol, and asks
    for no history. *)
Theorem C1_quote_short_circuit (yf : YFinance) (symbol : string) (stock : Ticker)
  (fields : list (string * option Q)) (p : Q) (log : list Call) :
  yf (upper (strip symbol)) = Ok stock ->
  info stock = Ok fields ->
  first_nonzero fields candidate_fields = Some p ->
  exists calls,
    get_realtime_stock_price yf symbol log
    = (Ok (price_message (upper (strip symbol)) p), (log ++ calls)%list)
    /\ no_history_call calls.
Proof.
  intros Hyf Hinfo Hp.
  unfold get_realtime_stock_price, try_except, bind, call, price_from_info,
    try_except, py_or, stock_info_get, bind, call, ret.
  rewrite Hyf, Hinfo. cbn [first_nonzero candidate_fields] in Hp.
  destruct (truthy (info_get fields "regularMarketPrice")) eqn:T1.
  { rewrite Hp. exists [CallTicker (upper (strip symbol)); CallInfo].
    split; [now rewrite <- app_assoc|reflexivity]. }
  destruct (truthy (info_get fields "currentPrice")) eqn:T2.
  { rewrite Hp. exists [CallTicker (upper (strip symbol)); CallInfo; CallInfo].
    split; [now rewrite <- !app_assoc|reflexivity]. }
  destruct (truthy (info_get fields "lastPrice")) eqn:T3; [|discriminate].
  rewrite Hp.
  exists [CallTicker (upper (strip symbol)); CallInfo; CallInfo; CallInfo].
  split; [now rewrite <- !app_assoc|reflexivity].
Qed.

Lemma C1_quote_short_circuit_witness :
  exists calls,
    get_realtime_stock_price (yf_of zero_first_ticker) " aapl " []
    = (Ok "Current price of AAPL is $12.50", calls)
    /\ no_history_call calls.
Proof.
  destruct (C1_quote_short_circuit (yf_of zero_first_ticker) " aapl "
              zero_first_ticker
              [("regularMarketPrice", Some 0%Q); ("currentPrice", Some (125 # 10))]
              (125 # 10) [] eq_refl eq_refl eq_refl) as [calls [E H]].
  exists calls. split; [exact E | exact H].
Defined.

(** C1, as stated, fails: with regularMarketPrice = 0 and currentPrice = 12.5
    the first non-null candidate is 0, whose text would be $0.00, and the
    price returned is 12.50. *)
Lemma C1_first_non_null_counterexample :
  first_non_null
    [("regularMarketPrice", Some 0%Q); ("currentPrice", Some (125 # 10))]
    candidate_fields = Some 0%Q
  /\ price_message "AAPL" 0 = "Current price of AAPL is $0.00"
  /\ get_realtime_stock_price (yf_of zero_first_ticker) "aapl" []
     = (Ok "Current price of AAPL is $12.50",
        [CallTicker "AAPL"; CallInfo; CallInfo])
  /\ ~ quote_short_circuit_as_stated.
Proof.
  repeat (split; [reflexivity|]).
  intro H.
  destruct (H (yf_of zero_first_ticker) "aapl" zero_first_ticker
              [("regularMarketPrice", Some 0%Q); ("currentPrice", Some (125 # 10))]
              0%Q [] eq_refl eq_refl eq_refl) as [calls [E _]].
  vm_compute in E. discriminate E.
Qed.

Lemma price_from_info_unavailable (stock : Ticker) (symbol : string)
  (log : list Call) :
  quote_unavailable stock ->
  exists calls, price_from_info stock symbol log = (Ok None, (log ++ calls)%list).
Proof.
  unfold price_from_info, try_except, py_or, stock_info_get, bind, call, ret.
  intros [[e He] | [fields [Hf Hnone]]].
  - rewrite He. now exists [CallInfo].
  - rewrite Hf.
    rewrite !Hnone by (simpl; tauto). simpl.
    exists [CallInfo; CallInfo; CallInfo]. now rewrite <- !app_assoc.
Qed.

Lemma price_from_history_unavailable (stock : Ticker) (symbol interval : string)
  (log : list Call) :
  history_unavailable stock interval ->
  price_from_history stock symbol interval log
  = (Ok None, (log ++ [CallHistory "1d" interval])%list).
Proof.
  unfold price_from_history, try_except, bind, call, ret.
  intros [[e He] | He]; now rewrite He.
Qed.

(** C2: when the quote fields, the 1-minute history and the 5-minute history
    all yield nothing, [get_realtime_stock_price] raises an error that names
    the symbol; no price text is returned. *)
Theorem C2_all_tiers_fail (yf : YFinance) (symbol : string) (stock : Ticker)
  (log : list Call) :
  yf (upper (strip symbol)) = Ok stock ->
  quote_unavailable stock ->
  history_unavailable stock "1m" ->
  history_unavailable stock "5m" ->
  exists calls,
    get_realtime_stock_price yf symbol log
    = (Raise (ValueError (unavailable_message (upper (strip symbol)))),
       (log ++ calls)%list).
Proof.
  intros Hyf Hq H1 H5.
  unfold get_realtime_stock_price, try_except, bind.
  unfold call at 1. rewrite Hyf.
  destruct (price_from_info_unavailable stock (upper (strip symbol))
              (log ++ [CallTicker (upper (strip symbol))]) Hq) as [c1 E1].
  rewrite E1, (price_from_history_unavailable _ _ _ _ H1),
    (price_from_history_unavailable _ _ _ _ H5).
  unfold raise. simpl str_exn.
  eexists. rewrite <- !app_assoc. reflexivity.
Qed.

Lemma C2_all_tiers_fail_witness :
  exists calls,
    get_realtime_stock_price (yf_of silent_ticker) "msft" []
    = (Raise (ValueError
         "Failed to fetch price for MSFT: Could not fetch price for MSFT using any method"),
       calls).
Proof.
  destruct (C2_all_tiers_fail (yf_of silent_ticker) "msft" silent_ticker []
              eq_refl
              (or_introl (ex_intro _ (LibraryError "404") eq_refl))
              (or_intror eq_refl)
              (or_introl (ex_intro _ (LibraryError "timeout") eq_refl)))
    as [calls E].
  exists calls. exact E.
Defined.

(** The second tier: without a quote, the last close of a one-minute history
    that is not empty is the price. *)
Lemma history_fallback (yf : YFinance) (symbol : string) (stock : Ticker)
  (hist : History) (s : Timestamp * Q) (log : list Call) :
  yf (upper (strip symbol)) = Ok stock ->
  quote_unavailable stock ->
  history stock "1d" "1m" = Ok (hist ++ [s])%list ->
  exists calls,
    get_realtime_stock_price yf symbol log
    = (Ok (price_message (upper (strip symbol)) (snd s)), (log ++ calls)%list).
Proof.
  intros Hyf Hq Hh.
  unfold get_realtime_stock_price, try_except, bind.
  unfold call at 1. rewrite Hyf.
  destruct (price_from_info_unavailable stock (upper (strip symbol))
              (log ++ [CallTicker (upper (strip symbol))]) Hq) as [c1 E1].
  rewrite E1. unfold price_from_history, try_except, bind, call, lift, ret.
  rewrite Hh. unfold iloc_last. rewrite rev_app_distr. cbn [rev app].
  destruct hist; cbn [hist_empty negb app];
    eexists; rewrite <- !app_assoc; reflexivity.
Qed.

(** A zero in a candidate field is passed over; a zero in the last one is
    what the chain evaluates to when nothing else is there. *)
Example zero_quote_falls_back :
  get_realtime_stock_price (yf_of zero_only_ticker) "aapl" []
  = (Ok "Current price of AAPL is $185.57",
     [CallTicker "AAPL"; CallInfo; CallInfo; CallInfo; CallHistory "1d" "1m"]).
Proof. reflexivity. Qed.

Example zero_last_price_is_returned :
  get_realtime_stock_price (yf_of (ticker_of [("lastPrice", Some 0%Q)] [])) "aapl" []
  = (Ok "Current price of AAPL is $0.00",
     [CallTicker "AAPL"; CallInfo; CallInfo; CallInfo]).
Proof. reflexivity. Qed.

(** ** Computations that stay inside the tool boundary *)

Lemma quiet_ret {A : Type} (a : A) : quiet (ret a).
Proof. intro log. exists []. now rewrite app_nil_r. Qed.

Lemma quiet_raise {A : Type} (e : exn) : quiet (@raise A e).
Proof. intro log. exists []. now rewrite app_nil_r. Qed.

Lemma quiet_lift {A : Type} (r : Exc A) : quiet (lift r).
Proof. intro log. exists []. now rewrite app_nil_r. Qed.

Lemma quiet_call {A : Type} (c : Call) (r : Exc A) :
  is_oracle_call c = false -> quiet (call c r).
Proof. intros Hc log. exists [c]. simpl. now rewrite Hc. Qed.

Lemma quiet_bind {A B : Type} (m : M A) (k : A -> M B) :
  quiet m -> (forall a, quiet (k a)) -> quiet (bind m k).
Proof.
  intros Hm Hk log. unfold bind.
  destruct (Hm log) as [c1 [E1 N1]].
  destruct (m log) as [[a|e] log1]; simpl in E1; subst log1.
  - destruct (Hk a (log ++ c1)%list) as [c2 [E2 N2]].
    exists (c1 ++ c2)%list. rewrite E2, app_assoc, existsb_app, N1, N2. now split.
  - exists c1. now split.
Qed.

Lemma quiet_try_except {A : Type} (body : M A) (handler : exn -> M A) :
  quiet body -> (forall e, quiet (handler e)) -> quiet (try_except body handler).
Proof.
  intros Hm Hk log. unfold try_except.
  destruct (Hm log) as [c1 [E1 N1]].
  destruct (body log) as [[a|e] log1]; simpl in E1; subst log1.
  - exists c1. now split.
  - destruct (Hk e (log ++ c1)%list) as [c2 [E2 N2]].
    exists (c1 ++ c2)%list. rewrite E2, app_assoc, existsb_app, N1, N2. now split.
Qed.

Lemma total_try_except_ret {A : Type} (body : M A) (f : exn -> A) :
  total (try_except body (fun e => ret (f e))).
Proof.
  intro log. unfold try_except, ret.
  destruct (body log) as [[a|e] log1]; simpl; eauto.
Qed.

Ltac quiet_step :=
  first [ apply quiet_try_except; [|intro]
        | apply quiet_bind; [|intro]
        | apply quiet_call; reflexivity
        | apply quiet_ret | apply quiet_raise | apply quiet_lift ].

Lemma quiet_price_from_info (stock : Ticker) (symbol : string) :
  quiet (price_from_info stock symbol).
Proof.
  unfold price_from_info, py_or, stock_info_get.
  repeat quiet_step;
    repeat match goal with
           | |- quiet (if ?b then _ else _) => destruct b
           | |- quiet (match ?x with Some _ => _ | None => _ end) => destruct x
           | |- _ => quiet_step
           end.
Qed.

Lemma quiet_price_from_history (stock : Ticker) (symbol interval : string) :
  quiet (price_from_history stock symbol interval).
Proof.
  unfold price_from_history.
  repeat quiet_step.
  match goal with |- quiet (if ?b then _ else _) => destruct b end;
    repeat quiet_step.
Qed.

Lemma quiet_get_realtime_stock_price (yf : YFinance) (symbol : string) :
  quiet (get_realtime_stock_price yf symbol).
Proof.
  unfold get_realtime_stock_price.
  apply quiet_try_except; [|intro; apply quiet_raise].
  apply quiet_bind; [apply quiet_call; reflexivity|intro stock].
  apply quiet_bind; [apply quiet_price_from_info|intros [t|]]; [apply quiet_ret|].
  apply quiet_bind; [apply quiet_price_from_history|intros [t|]]; [apply quiet_ret|].
  apply quiet_bind; [apply quiet_price_from_history|intros [t|]]; [apply quiet_ret|].
  apply quiet_raise.
Qed.

Lemma quiet_get_historical_stock_price (yf : YFinance)
  (json_dumps : HistResult -> string) (symbol period interval : string) :
  quiet (get_historical_stock_price yf json_dumps symbol period interval).
Proof.
  unfold get_historical_stock_price.
  apply quiet_try_except; [|intro; apply quiet_raise].
  apply quiet_bind; [apply quiet_call; reflexivity|intro stock].
  apply quiet_bind; [apply quiet_call; reflexivity|intro hist].
  destruct (hist_empty hist); [apply quiet_raise|].
  repeat quiet_step.
Qed.

Lemma quiet_realtime_wrapped (yf : YFinance) (input_str : string) :
  quiet (get_realtime_stock_price_wrapped yf input_str).
Proof.
  unfold get_realtime_stock_price_wrapped.
  apply quiet_try_except; [apply quiet_get_realtime_stock_price|intro; apply quiet_ret].
Qed.

Lemma quiet_historical_wrapped (yf : YFinance)
  (json_dumps : HistResult -> string) (input_str : string) :
  quiet (get_historical_stock_price_wrapped yf json_dumps input_str).
Proof.
  unfold get_historical_stock_price_wrapped.
  apply quiet_try_except; [|intro; apply quiet_ret].
  destruct (split "," input_str) as [|a [|b [|c [|d l]]]];
    try apply quiet_raise.
  apply quiet_get_historical_stock_price.
Qed.

Lemma total_realtime_wrapped (yf : YFinance) (input_str : string) :
  total (get_realtime_stock_price_wrapped yf input_str).
Proof. apply total_try_except_ret. Qed.

Lemma total_historical_wrapped (yf : YFinance)
  (json_dumps : HistResult -> string) (input_str : string) :
  total (get_historical_stock_price_wrapped yf json_dumps input_str).
Proof. apply total_try_except_ret. Qed.

(** Every registered tool returns a text and only appends calls to the
    market-data library. *)
Lemma tools_return (yf : YFinance) (json_dumps : HistResult -> string)
  (t : Tool) (input_str : string) (log : list Call) :
  In t (tools yf json_dumps) ->
  exists observation calls,
    func t input_str log = (Ok observation, (log ++ calls)%list)
    /\ existsb is_oracle_call calls = false.
Proof.
  intros [<- | [<- | []]]; simpl func.
  - destruct (total_realtime_wrapped yf input_str log) as [s Hs].
    destruct (quiet_realtime_wrapped yf input_str log) as [calls [Hc Hn]].
    exists s, calls. split; [|exact Hn].
    destruct (get_realtime_stock_price_wrapped yf input_str log); simpl in *.
    now subst.
  - destruct (total_historical_wrapped yf json_dumps input_str log) as [s Hs].
    destruct (quiet_historical_wrapped yf json_dumps input_str log) as [calls [Hc Hn]].
    exists s, calls. split; [|exact Hn].
    destruct (get_historical_stock_price_wrapped yf json_dumps input_str log); simpl in *.
    now subst.
Qed.

(** ** The tool boundary *)

(** C3: for every input string each registered tool returns a string and
    never raises; a failure of the real-time fetch or of the historical fetch
    comes back as an error text that carries the failure's message. *)
Theorem C3_tools_never_raise (yf : YFinance) (json_dumps : HistResult -> string)
  (input_str : string) (log : list Call) :
  (forall t, In t (tools yf json_dumps) ->
     exists observation log', func t input_str log = (Ok observation, log'))
  /\ (forall e log',
        get_realtime_stock_price yf (strip input_str) log = (Raise e, log') ->
        get_realtime_stock_price_wrapped yf input_str log
        = (Ok ("Error getting real-time price: " ++ str_exn e), log'))
  /\ (forall a b c e log',
        split "," input_str = [a; b; c] ->
        get_historical_stock_price yf json_dumps (strip a) (strip b) (strip c) log
        = (Raise e, log') ->
        get_historical_stock_price_wrapped yf json_dumps input_str log
        = (Ok ("Error parsing input: " ++ str_exn e), log')).
Proof.
  split; [|split].
  - intros t Ht.
    destruct (tools_return yf json_dumps t input_str log Ht) as [s [calls [E _]]].
    eauto.
  - intros e log' E.
    unfold get_realtime_stock_price_wrapped, try_except. now rewrite E.
  - intros a b c e log' Hs E.
    unfold get_historical_stock_price_wrapped, try_except. now rewrite Hs, E.
Qed.

Lemma C3_tools_never_raise_witness :
  get_realtime_stock_price_wrapped (yf_of silent_ticker) "msft" []
  = (Ok "Error getting real-time price: Failed to fetch price for MSFT: Could not fetch price for MSFT using any method",
     [CallTicker "MSFT"; CallInfo; CallHistory "1d" "1m"; CallHistory "1d" "5m"])
  /\ get_historical_stock_price_wrapped yf_empty show_result "msft,1mo,1d" []
     = (Ok "Error parsing input: No historical data available for msft with period 1mo and interval 1d",
        [CallTicker "msft"; CallHistory "1mo" "1d"]).
Proof.
  split.
  - exact (proj1 (proj2 (C3_tools_never_raise (yf_of silent_ticker) show_result
                           "msft" []))
             (ValueError "Failed to fetch price for MSFT: Could not fetch price for MSFT using any method")
             [CallTicker "MSFT"; CallInfo; CallHistory "1d" "1m"; CallHistory "1d" "5m"]
             eq_refl).
  - exact (proj2 (proj2 (C3_tools_never_raise yf_empty show_result
                           "msft,1mo,1d" [])) "msft" "1mo" "1d"
             (ValueError "No historical data available for msft with period 1mo and interval 1d")
             [CallTicker "msft"; CallHistory "1mo" "1d"] eq_refl eq_refl).
Defined.

(** C4: the historical tool splits its input on commas and trims the parts:
    [AAPL,1mo,1d] is fetched as symbol AAPL, period 1mo, interval 1d; an
    input whose split has not exactly three parts (there is one part more
    than there are commas, so [AAPL] has one) gives an error text and makes
    no call. *)
Theorem C4_historical_input_parsing (yf : YFinance)
  (json_dumps : HistResult -> string) (log : list Call) :
  (forall input_str a b c,
     split "," input_str = [a; b; c] ->
     get_historical_stock_price_wrapped yf json_dumps input_str log
     = try_except
         (get_historical_stock_price yf json_dumps (strip a) (strip b) (strip c))
         (fun e => ret (parsing_error_text e)) log)
  /\ get_historical_stock_price_wrapped yf json_dumps "AAPL,1mo,1d" log
     = try_except (get_historical_stock_price yf json_dumps "AAPL" "1mo" "1d")
         (fun e => ret (parsing_error_text e)) log
  /\ (forall input_str,
        List.length (split "," input_str) <> 3 ->
        get_historical_stock_price_wrapped yf json_dumps input_str log
        = (Ok (parsing_error_text
                 (unpack_error 3 (List.length (split "," input_str)))), log))
  /\ (forall input_str,
        List.length (split "," input_str) = S (count_char "," input_str))
  /\ get_historical_stock_price_wrapped yf json_dumps "AAPL" log
     = (Ok "Error parsing input: not enough values to unpack (expected 3, got 1)",
        log).
Proof.
  split; [|split; [|split; [|split]]].
  - intros input_str a b c Hs.
    unfold get_historical_stock_price_wrapped. now rewrite Hs.
  - reflexivity.
  - intros input_str Hl.
    unfold get_historical_stock_price_wrapped, try_except.
    destruct (split "," input_str) as [|a [|b [|c [|d l]]]]; try reflexivity.
    now contradiction Hl.
  - intro input_str. apply split_length.
  - reflexivity.
Qed.

Lemma C4_historical_input_parsing_witness :
  get_historical_stock_price_wrapped yf_daily show_result " aapl , 1mo,1d " []
  = (Ok "AAPL 2024-01-02..2024-01-04 3", [CallTicker "aapl"; CallHistory "1mo" "1d"])
  /\ get_historical_stock_price_wrapped yf_daily show_result "AAPL,1mo,1d,x" []
     = (Ok "Error parsing input: too many values to unpack (expected 3)", []).
Proof.
  split.
  - rewrite (proj1 (C4_historical_input_parsing yf_daily show_result [])
               " aapl , 1mo,1d " " aapl " " 1mo" "1d " eq_refl).
    reflexivity.
  - apply (proj1 (proj2 (proj2 (C4_historical_input_parsing yf_daily show_result [])))
             "AAPL,1mo,1d,x").
    simpl. lia.
Defined.

(** ** The reasoning loop *)

Lemma find_tool_In (registry : list Tool) (action_name : string) (t : Tool) :
  find_tool registry action_name = Some t -> In t registry.
Proof.
  induction registry as [|t' registry IH]; simpl; [discriminate|].
  destruct (String.eqb (name t') action_name).
  - intros [= <-]. now left.
  - intro H. right. now apply IH.
Qed.

Lemma oracle_calls_app (l1 l2 : list Call) :
  oracle_calls (l1 ++ l2) = oracle_calls l1 + oracle_calls l2.
Proof. unfold oracle_calls. now rewrite filter_app, length_app. Qed.

Lemma oracle_calls_quiet (calls : list Call) :
  existsb is_oracle_call calls = false -> oracle_calls calls = 0.
Proof.
  unfold oracle_calls. induction calls as [|c calls IH]; simpl; [reflexivity|].
  destruct (is_oracle_call c); simpl; [discriminate|exact IH].
Qed.

Lemma run_outcome_shift (oracle : Oracle) (parse : string -> ParsedOutput)
  (query : string) (steps0 : list AgentStep) (s : AgentStep) (n : nat)
  (pre calls : list Call) (r : Exc (AgentResult * list AgentStep)) :
  oracle_calls pre = 1 ->
  run_outcome oracle parse query (steps0 ++ [s]) n calls r ->
  run_outcome oracle parse query steps0 (S n) (pre ++ calls) r.
Proof.
  intros Hpre. unfold run_outcome.
  destruct r as [[[a|reason] steps]|e]; rewrite ?length_app; simpl;
    rewrite ?oracle_calls_app, ?Hpre.
  - intros [H1 H2]. split; [exact H1|lia].
  - intros [H1 [H2 H3]]. repeat split; [exact H1|lia|lia].
  - trivial.
Qed.

(** One iteration, with the effects spelled out. *)
Lemma reasoning_loop_step (registry : list Tool) (oracle : Oracle)
  (parse : string -> ParsedOutput) (query : string) (n : nat)
  (steps : list AgentStep) (log : list Call) :
  reasoning_loop registry oracle parse (S n) query steps log
  = match oracle query steps with
    | Raise e => (Raise e, (log ++ [CallOracle])%list)
    | Ok output =>
        match parse output with
        | FinalAnswer a => (Ok (final_answer a, steps), (log ++ [CallOracle])%list)
        | Action thought action_name action_input =>
            match find_tool registry action_name with
            | Some tool =>
                match func tool action_input (log ++ [CallOracle])%list with
                | (Ok observation, log') =>
                    reasoning_loop registry oracle parse n query
                      (steps ++ [ToolStep thought action_name action_input observation])%list
                      log'
                | (Raise e, log') => (Raise e, log')
                end
            | None =>
                reasoning_loop registry oracle parse n query
                  (steps ++ [ParsingErrorStep output])%list (log ++ [CallOracle])%list
            end
        | Malformed =>
            reasoning_loop registry oracle parse n query
              (steps ++ [ParsingErrorStep output])%list (log ++ [CallOracle])%list
        end
    end.
Proof.
  cbn [reasoning_loop]. unfold bind at 1. unfold call.
  destruct (oracle query steps) as [output|e]; [|reflexivity].
  destruct (parse output) as [a|thought action_name action_input|];
    try reflexivity.
  destruct (find_tool registry action_name) as [tool|]; reflexivity.
Qed.

(** The loop from any state: it only appends calls, asks the oracle at most
    [n] times, and ends as [run_outcome] says. *)
Lemma reasoning_loop_outcome (yf : YFinance) (json_dumps : HistResult -> string)
  (oracle : Oracle) (parse : string -> ParsedOutput) (query : string) (n : nat) :
  forall (steps : list AgentStep) (log : list Call),
  exists calls,
    snd (reasoning_loop (tools yf json_dumps) oracle parse n query steps log)
    = (log ++ calls)%list
    /\ oracle_calls calls <= n
    /\ run_outcome oracle parse query steps n calls
         (fst (reasoning_loop (tools yf json_dumps) oracle parse n query steps log)).
Proof.
  induction n as [|n IH]; intros steps log.
  - exists []. simpl. rewrite app_nil_r.
    split; [reflexivity|]. split; [apply Nat.le_refl|].
    split; [reflexivity|]. split; [now rewrite Nat.add_0_r|reflexivity].
  - rewrite reasoning_loop_step.
    destruct (oracle query steps) as [output|e] eqn:Ho.
    2:{ exists [CallOracle]. simpl. split; [reflexivity|].
        split; [unfold oracle_calls; simpl; lia|]. now exists steps. }
    assert (Hrec : forall s,
      exists calls,
        snd (reasoning_loop (tools yf json_dumps) oracle parse n query
               (steps ++ [s])%list (log ++ [CallOracle])%list) = (log ++ calls)%list
        /\ oracle_calls calls <= S n
        /\ run_outcome oracle parse query steps (S n) calls
             (fst (reasoning_loop (tools yf json_dumps) oracle parse n query
                     (steps ++ [s])%list (log ++ [CallOracle])%list))).
    { intro s. destruct (IH (steps ++ [s])%list (log ++ [CallOracle])%list)
        as [calls [E [B O]]].
      exists ([CallOracle] ++ calls)%list. rewrite E, app_assoc.
      split; [reflexivity|]. split; [rewrite oracle_calls_app; simpl; lia|].
      now apply (run_outcome_shift oracle parse query steps s). }
    destruct (parse output) as [a|thought action_name action_input|] eqn:Hp.
    + exists [CallOracle]. unfold ret, run_outcome. simpl.
      split; [reflexivity|].
      split; [unfold oracle_calls; simpl; lia|].
      split; [|lia]. exists output. now split.
    + destruct (find_tool (tools yf json_dumps) action_name) as [tool|] eqn:Hf;
        [|apply Hrec].
      apply find_tool_In in Hf.
      destruct (tools_return yf json_dumps tool action_input
                  (log ++ [CallOracle])%list Hf) as [obs [c [Et Nc]]].
      rewrite Et.
      destruct (IH (steps ++ [ToolStep thought action_name action_input obs])%list
                  ((log ++ [CallOracle]) ++ c)%list) as [calls [E [B O]]].
      exists (([CallOracle] ++ c) ++ calls)%list.
      rewrite E, !app_assoc. split; [reflexivity|].
      assert (Hc : oracle_calls ([CallOracle] ++ c) = 1)
        by (rewrite oracle_calls_app, (oracle_calls_quiet c Nc); reflexivity).
      split; [rewrite oracle_calls_app, Hc; lia|].
      now apply (run_outcome_shift oracle parse query steps
                   (ToolStep thought action_name action_input obs)).
    + apply Hrec.
Qed.

Lemma reasoning_loop_final (registry : list Tool) (oracle : Oracle)
  (parse : string -> ParsedOutput) (query output a : string) (n : nat)
  (steps : list AgentStep) (log : list Call) :
  oracle query steps = Ok output ->
  parse output = FinalAnswer a ->
  reasoning_loop registry oracle parse (S n) query steps log
  = (Ok (final_answer a, steps), (log ++ [CallOracle])%list).
Proof.
  intros Ho Hp. now rewrite reasoning_loop_step, Ho, Hp.
Qed.

Lemma reasoning_loop_rejected (registry : list Tool) (oracle : Oracle)
  (parse : string -> ParsedOutput) (query output : string) (n : nat)
  (steps : list AgentStep) (log : list Call) :
  oracle query steps = Ok output ->
  rejected registry parse output ->
  reasoning_loop registry oracle parse (S n) query steps log
  = reasoning_loop registry oracle parse n query
      (steps ++ [ParsingErrorStep output])%list (log ++ [CallOracle])%list.
Proof.
  intros Ho Hr. rewrite reasoning_loop_step, Ho.
  destruct Hr as [Hp | [t [nm [inp [Hp Hf]]]]]; rewrite Hp; [reflexivity|].
  now rewrite Hf.
Qed.

(** C7: for every oracle the run asks the oracle at most 5 times and ends as
    [run_outcome] says (an answer the oracle gave at fewer than 5 steps, the
    failure after exactly 5 steps, or a fault of the oracle); a Final Answer
    emitted while iterations are left is returned; and when the oracle never
    emits one the run returns the failure "max iterations exceeded" after
    exactly 5 steps and 5 oracle calls, without raising. *)
Theorem C7_loop_terminates (yf : YFinance) (json_dumps : HistResult -> string)
  (oracle : Oracle) (parse : string -> ParsedOutput) (query : string)
  (log : list Call) :
  (exists calls,
     snd (reasoning_loop (tools yf json_dumps) oracle parse max_iterations
            query [] log) = (log ++ calls)%list
     /\ oracle_calls calls <= 5
     /\ run_outcome oracle parse query [] 5 calls
          (fst (reasoning_loop (tools yf json_dumps) oracle parse
                  max_iterations query [] log)))
  /\ (forall n steps output a log0,
        oracle query steps = Ok output ->
        parse output = FinalAnswer a ->
        reasoning_loop (tools yf json_dumps) oracle parse (S n) query steps log0
        = (Ok (final_answer a, steps), (log0 ++ [CallOracle])%list))
  /\ (never_answers oracle parse query ->
      exists steps calls,
        reasoning_loop (tools yf json_dumps) oracle parse max_iterations
          query [] log
        = (Ok (failure_reason "max iterations exceeded", steps),
           (log ++ calls)%list)
        /\ List.length steps = 5 /\ oracle_calls calls = 5).
Proof.
  split; [|split].
  - apply (reasoning_loop_outcome yf json_dumps oracle parse query 5 [] log).
  - intros n steps output a log0. apply reasoning_loop_final.
  - intro Hn.
    destruct (reasoning_loop_outcome yf json_dumps oracle parse query 5 [] log)
      as [calls [E [_ O]]].
    unfold max_iterations.
    destruct (reasoning_loop (tools yf json_dumps) oracle parse 5 query [] log)
      as [[[[a|reason] steps]|e] log'];
      simpl in E, O; subst log'.
    + destruct O as [[output [Ho Hp]] _].
      destruct (Hn steps) as [output' [Ho' Hp']].
      rewrite Ho in Ho'. injection Ho' as <-. now apply Hp' in Hp.
    + destruct O as [-> [Hl Hc]]. now exists steps, calls.
    + destruct O as [steps Ho].
      destruct (Hn steps) as [output' [Ho' _]]. congruence.
Qed.

Lemma C7_loop_terminates_witness :
  reasoning_loop (tools (yf_of quoted_ticker) show_result) oracle_price
    react_parse 3 "What is the current price of Apple stock?"
    [ToolStep "Thought: I need the current price" "get_realtime_stock_price" "AAPL" "Current price of AAPL is $150.25"] []
  = (Ok (final_answer "Current price of AAPL is $150.25",
         [ToolStep "Thought: I need the current price" "get_realtime_stock_price" "AAPL" "Current price of AAPL is $150.25"]),
     [CallOracle])
  /\ exists steps calls,
       reasoning_loop (tools (yf_of quoted_ticker) show_result) oracle_rambling
         react_parse max_iterations "What is the current price of Apple stock?" [] []
       = (Ok (failure_reason "max iterations exceeded", steps), calls)
       /\ List.length steps = 5 /\ oracle_calls calls = 5.
Proof.
  split.
  - apply (proj1 (proj2 (C7_loop_terminates (yf_of quoted_ticker) show_result
                           oracle_price react_parse
                           "What is the current price of Apple stock?" []))
             2 _ "Final Answer: Current price of AAPL is $150.25");
      reflexivity.
  - apply (proj2 (proj2 (C7_loop_terminates (yf_of quoted_ticker) show_result
                           oracle_rambling react_parse
                           "What is the current price of Apple stock?" []))).
    intro steps. exists "Let me think about it.".
    split; [reflexivity|]. intros a. vm_compute. discriminate.
Defined.

(** C8: an oracle output that is malformed, or that names a tool that is not
    registered, does not end the run: it uses one iteration, is appended to
    the step history shown to the oracle, and the loop asks the oracle again;
    when this happens on step 1 and the next output is a Final Answer, the
    run ends in DONE with that answer. *)
Theorem C8_malformed_output_recovers (yf : YFinance)
  (json_dumps : HistResult -> string) (oracle : Oracle)
  (parse : string -> ParsedOutput) (query output : string)
  (steps : list AgentStep) (log : list Call) :
  oracle query steps = Ok output ->
  rejected (tools yf json_dumps) parse output ->
  (forall n,
     reasoning_loop (tools yf json_dumps) oracle parse (S n) query steps log
     = reasoning_loop (tools yf json_dumps) oracle parse n query
         (steps ++ [ParsingErrorStep output])%list (log ++ [CallOracle])%list)
  /\ (forall output2 a,
        steps = [] ->
        oracle query [ParsingErrorStep output] = Ok output2 ->
        parse output2 = FinalAnswer a ->
        reasoning_loop (tools yf json_dumps) oracle parse max_iterations
          query [] log
        = (Ok (final_answer a, [ParsingErrorStep output]),
           (log ++ [CallOracle; CallOracle])%list)).
Proof.
  intros Ho Hr. split.
  - intro n. now apply reasoning_loop_rejected.
  - intros output2 a -> Ho2 Hp2. unfold max_iterations.
    rewrite (reasoning_loop_rejected _ _ _ _ output 4 [] log Ho Hr).
    simpl app at 1.
    rewrite (reasoning_loop_final _ _ _ _ output2 a 3 _ _ Ho2 Hp2).
    now rewrite <- app_assoc.
Qed.

Lemma C8_malformed_output_recovers_witness :
  reasoning_loop (tools (yf_of quoted_ticker) show_result) oracle_recovering
    react_parse max_iterations "How is AAPL doing?" [] []
  = (Ok (final_answer "I could not find a price.",
         [ParsingErrorStep "I will look it up"]),
     [CallOracle; CallOracle])
  /\ reasoning_loop (tools (yf_of quoted_ticker) show_result) oracle_wrong_tool
       react_parse max_iterations "How is AAPL doing?" [] []
     = (Ok (final_answer "no such tool.",
            [ParsingErrorStep
               ("Thought: search the web" ++ nl ++ "Action: web_search" ++ nl
                  ++ "Action Input: AAPL price")]),
        [CallOracle; CallOracle]).
Proof.
  split.
  - apply (proj2 (C8_malformed_output_recovers (yf_of quoted_ticker) show_result
                    oracle_recovering react_parse "How is AAPL doing?"
                    "I will look it up" [] [] eq_refl (or_introl eq_refl))
             ("Thought: I now know the final answer" ++ nl
                ++ "Final Answer: I could not find a price."));
      reflexivity.
  - apply (proj2 (C8_malformed_output_recovers (yf_of quoted_ticker) show_result
                    oracle_wrong_tool react_parse "How is AAPL doing?"
                    ("Thought: search the web" ++ nl ++ "Action: web_search" ++ nl
                       ++ "Action Input: AAPL price") [] [] eq_refl
                    (or_intror
                       (ex_intro _ "Thought: search the web"
                          (ex_intro _ "web_search"
                             (ex_intro _ "AAPL price" (conj eq_refl eq_refl))))))
             "Final Answer: no such tool.");
      reflexivity.
Defined.

(** ** The service *)

Lemma process_query_output (py : Builtins) (invoke : PyDict -> M PyDict)
  (query : Query) (response : PyDict) (v : PyVal) (log log' : list Call) :
  invoke [("input", VStr (text query))] log = (Ok response, log') ->
  dict_lookup String.eqb "output" response = Some v ->
  process_query py invoke query log = (Ok [("response", v)], log').
Proof.
  intros Hi Ho.
  unfold process_query, try_except, bind, dict_mem, lift, pydict_getitem, ret.
  now rewrite Hi, Ho.
Qed.

Lemma process_query_error (py : Builtins) (invoke : PyDict -> M PyDict)
  (query : Query) (response : PyDict) (v : PyVal) (log log' : list Call) :
  invoke [("input", VStr (text query))] log = (Ok response, log') ->
  dict_lookup String.eqb "output" response = None ->
  dict_lookup String.eqb "error" response = Some v ->
  process_query py invoke query log
  = (Ok [("response", VStr ("Error: " ++ py_str py v))], log').
Proof.
  intros Hi Ho He.
  unfold process_query, try_except, bind, dict_mem, lift, pydict_getitem, ret.
  now rewrite Hi, Ho, He.
Qed.

Lemma process_query_other (py : Builtins) (invoke : PyDict -> M PyDict)
  (query : Query) (response : PyDict) (log log' : list Call) :
  invoke [("input", VStr (text query))] log = (Ok response, log') ->
  dict_lookup String.eqb "output" response = None ->
  dict_lookup String.eqb "error" response = None ->
  process_query py invoke query log
  = (Ok [("response", VStr (repr_dict py response))], log').
Proof.
  intros Hi Ho He.
  unfold process_query, try_except, bind, dict_mem, lift, pydict_getitem, ret.
  now rewrite Hi, Ho, He.
Qed.

Lemma process_query_fault (py : Builtins) (invoke : PyDict -> M PyDict)
  (query : Query) (e : exn) (log log' : list Call) :
  invoke [("input", VStr (text query))] log = (Raise e, log') ->
  process_query py invoke query log
  = (Raise (HTTPException 500 (str_exn e)), log').
Proof.
  intros Hi. unfold process_query, try_except, bind, raise. now rewrite Hi.
Qed.

Lemma agent_executor_invoke_run (yf : YFinance)
  (json_dumps : HistResult -> string) (oracle : Oracle)
  (parse : string -> ParsedOutput) (query_text : string) (log : list Call) :
  agent_executor_invoke yf json_dumps oracle parse
    [("input", VStr query_text)] log
  = match reasoning_loop (tools yf json_dumps) oracle parse max_iterations
            query_text [] log with
    | (Ok (final_answer answer, steps), log') =>
        (Ok [("input", VStr query_text); ("output", VStr answer);
             ("intermediate_steps", VSteps steps)], log')
    | (Ok (failure_reason reason, steps), log') =>
        (Ok [("input", VStr query_text); ("error", VStr reason);
             ("intermediate_steps", VSteps steps)], log')
    | (Raise e, log') => (Raise e, log')
    end.
Proof.
  unfold agent_executor_invoke.
  change (dict_lookup String.eqb "input" [("input", VStr query_text)])
    with (Some (VStr query_text)).
  cbv beta iota. unfold bind.
  destruct (reasoning_loop (tools yf json_dumps) oracle parse max_iterations
              query_text [] log) as [[[[answer|reason] steps]|e] log'];
    reflexivity.
Qed.

(** C9: [process_query] answers with a [response] whenever the executor
    returns: what stands under [output] if there is such a key, else
    "Error: " and what stands under [error]; it raises a service error
    (status 500) exactly when the executor raised.  Over the reasoning loop,
    [handle] gives the final answer on DONE and "Error: " with the failure
    reason on FAILED, and raises only what an oracle call raised. *)
Theorem C9_handle_response (yf : YFinance) (json_dumps : HistResult -> string)
  (py : Builtins) (oracle : Oracle) (parse : string -> ParsedOutput)
  (query_text : string) (log : list Call) :
  (forall invoke : PyDict -> M PyDict,
     match invoke [("input", VStr query_text)] log with
     | (Ok response, log') =>
         exists v,
           process_query py invoke {| text := query_text |} log
           = (Ok [("response", v)], log')
           /\ (forall a, dict_lookup String.eqb "output" response = Some a ->
                 v = a)
           /\ (dict_lookup String.eqb "output" response = None ->
               forall e, dict_lookup String.eqb "error" response = Some e ->
                 v = VStr ("Error: " ++ py_str py e))
     | (Raise e, log') =>
         process_query py invoke {| text := query_text |} log
         = (Raise (HTTPException 500 (str_exn e)), log')
     end)
  /\ match reasoning_loop (tools yf json_dumps) oracle parse max_iterations
            query_text [] log with
     | (Ok (final_answer answer, _), log') =>
         handle yf json_dumps py oracle parse query_text log
         = (Ok [("response", VStr answer)], log')
     | (Ok (failure_reason reason, _), log') =>
         handle yf json_dumps py oracle parse query_text log
         = (Ok [("response", VStr ("Error: " ++ reason))], log')
     | (Raise e, log') =>
         handle yf json_dumps py oracle parse query_text log
         = (Raise (HTTPException 500 (str_exn e)), log')
         /\ exists steps, oracle query_text steps = Raise e
     end.
Proof.
  split.
  - intro invoke.
    destruct (invoke [("input", VStr query_text)] log) as [[response|e] log']
      eqn:Hi; [|now apply process_query_fault].
    destruct (dict_lookup String.eqb "output" response) as [a|] eqn:Ho.
    + exists a. split; [now apply process_query_output with (1 := Hi)|].
      split; [now intros a' [= ->]|discriminate].
    + destruct (dict_lookup String.eqb "error" response) as [e|] eqn:He.
      * exists (VStr ("Error: " ++ py_str py e)).
        split; [now apply (process_query_error py invoke _ response e)|].
        split; [discriminate|]. now intros _ e' [= ->].
      * exists (VStr (repr_dict py response)).
        split; [now apply process_query_other with (1 := Hi)|].
        split; [discriminate|]. intros _ e' [=].
  - destruct (reasoning_loop_outcome yf json_dumps oracle parse query_text 5 []
                log) as [calls [_ [_ O]]].
    unfold handle.
    pose proof (agent_executor_invoke_run yf json_dumps oracle parse query_text
                  log) as Hrun.
    unfold max_iterations in *.
    destruct (reasoning_loop (tools yf json_dumps) oracle parse 5 query_text []
                log) as [[[[answer|reason] steps]|e] log'].
    + now apply process_query_output with (1 := Hrun).
    + now apply (process_query_error py _ {| text := query_text |} _
                   (VStr reason) log log' Hrun).
    + split; [|exact O]. now apply process_query_fault.
Qed.

Lemma C9_handle_response_witness :
  process_query py_sample invoke_error {| text := "How is AAPL doing?" |} []
  = (Ok [("response", VStr "Error: quota exceeded")], []).
Proof.
  destruct (proj1 (C9_handle_response yf_empty show_result py_sample
                     oracle_down react_parse "How is AAPL doing?" [])
              invoke_error) as [v [E [_ He]]].
  rewrite E. now rewrite (He eq_refl (VStr "quota exceeded") eq_refl).
Defined.

Example handle_price_query :
  handle (yf_of quoted_ticker) show_result py_sample oracle_price react_parse
    "What is the current price of Apple stock?" []
  = (Ok [("response", VStr "Current price of AAPL is $150.25")],
     [CallOracle; CallTicker "AAPL"; CallInfo; CallInfo; CallOracle]).
Proof. reflexivity. Qed.

Example handle_oracle_down :
  handle (yf_of quoted_ticker) show_result py_sample oracle_down react_parse
    "What is the current price of Apple stock?" []
  = (Raise (HTTPException 500 "Could not connect to the endpoint"), [CallOracle]).
Proof. reflexivity. Qed.

(** ** The order of strings *)

Lemma ascii_compare_refl (a : ascii) : Ascii.compare a a = Eq.
Proof. apply N.compare_refl. Qed.

Lemma ascii_compare_lt_trans (a b c : ascii) :
  Ascii.compare a b = Lt -> Ascii.compare b c = Lt -> Ascii.compare a c = Lt.
Proof.
  unfold Ascii.compare. rewrite !N.compare_lt_iff. apply N.lt_trans.
Qed.

Lemma string_compare_refl (s : string) : String.compare s s = Eq.
Proof.
  induction s as [|c s IH]; simpl; [reflexivity|].
  now rewrite ascii_compare_refl.
Qed.

Lemma string_compare_lt_trans (s1 : string) :
  forall s2 s3,
    String.compare s1 s2 = Lt -> String.compare s2 s3 = Lt ->
    String.compare s1 s3 = Lt.
Proof.
  induction s1 as [|a s1 IH]; intros [|b s2] [|c s3]; simpl; try congruence.
  destruct (Ascii.compare a b) eqn:Eab; try discriminate;
    destruct (Ascii.compare b c) eqn:Ebc; try discriminate; intros H1 H2.
  - apply Ascii.compare_eq_iff in Eab, Ebc. subst.
    rewrite ascii_compare_refl. now apply (IH s2).
  - apply Ascii.compare_eq_iff in Eab. subst. now rewrite Ebc.
  - apply Ascii.compare_eq_iff in Ebc. subst. now rewrite Eab.
  - now rewrite (ascii_compare_lt_trans a b c).
Qed.


Lemma string_ltb_trans (a b c : string) :
  String.ltb a b = true -> String.ltb b c = true -> String.ltb a c = true.
Proof.
  unfold String.ltb.
  destruct (String.compare a b) eqn:E1; try discriminate.
  destruct (String.compare b c) eqn:E2; try discriminate.
  now rewrite (string_compare_lt_trans a b c).
Qed.

Lemma string_leb_ltb (a b : string) :
  String.leb a b = String.ltb a b || String.eqb a b.
Proof.
  unfold String.leb, String.ltb.
  destruct (String.compare a b) eqn:E.
  - apply String.compare_eq_iff in E. subst. now rewrite String.eqb_refl.
  - reflexivity.
  - destruct (String.eqb_spec a b) as [->|]; [|reflexivity].
    now rewrite string_compare_refl in E.
Qed.

Lemma string_ltb_false_leb (a b : string) :
  String.ltb a b = false -> String.leb b a = true.
Proof.
  unfold String.ltb, String.leb. rewrite (String.compare_antisym b a).
  now destruct (String.compare a b).
Qed.

Lemma string_leb_refl (a : string) : String.leb a a = true.
Proof. unfold String.leb. now rewrite string_compare_refl. Qed.

Lemma string_leb_trans (a b c : string) :
  String.leb a b = true -> String.leb b c = true -> String.leb a c = true.
Proof.
  rewrite !string_leb_ltb. intros H1 H2.
  apply orb_true_iff in H1, H2. apply orb_true_iff.
  destruct H1 as [H1|H1], H2 as [H2|H2];
    try (apply String.eqb_eq in H1; subst);
    try (apply String.eqb_eq in H2; subst); auto.
  - left. now apply (string_ltb_trans a b c).
  - right. apply String.eqb_refl.
Qed.

(** ** Fixed-width decimals and the ISO format *)

Lemma append_assoc (a b c : string) : (a ++ b) ++ c = a ++ (b ++ c).
Proof. induction a as [|x a IH]; simpl; [reflexivity|now rewrite IH]. Qed.

Lemma append_nil_r (a : string) : a ++ EmptyString = a.
Proof. induction a as [|x a IH]; simpl; [reflexivity|now rewrite IH]. Qed.

Lemma digit_char_compare (a b : N) :
  (a < 10)%N -> (b < 10)%N ->
  Ascii.compare (digit_char a) (digit_char b) = (a ?= b)%N.
Proof.
  intros Ha Hb. unfold Ascii.compare, digit_char.
  rewrite !N_ascii_embedding by lia.
  destruct (N.compare_spec a b) as [->|H|H].
  - apply N.compare_refl.
  - apply N.compare_lt_iff. lia.
  - apply N.compare_gt_iff. lia.
Qed.

(** Comparing two texts that start with numbers of the same width compares
    the numbers first. *)
Lemma fixed_dec_compare (w : nat) :
  forall (a b : N) (s t : string),
    (a < 10 ^ N.of_nat w)%N -> (b < 10 ^ N.of_nat w)%N ->
    String.compare (fixed_dec w a ++ s) (fixed_dec w b ++ t)
    = match (a ?= b)%N with
      | Eq => String.compare s t
      | c => c
      end.
Proof.
  induction w as [|w IH]; intros a b s t Ha Hb.
  - simpl in *. assert (a = 0%N) by lia. assert (b = 0%N) by lia. now subst.
  - rewrite Nat2N.inj_succ, N.pow_succ_r' in Ha, Hb.
    cbn [fixed_dec]. rewrite !append_assoc. simpl append at 2 4.
    assert (Ha' : (a / 10 < 10 ^ N.of_nat w)%N)
      by (apply N.Div0.div_lt_upper_bound; lia).
    assert (Hb' : (b / 10 < 10 ^ N.of_nat w)%N)
      by (apply N.Div0.div_lt_upper_bound; lia).
    rewrite (IH _ _ _ _ Ha' Hb'). simpl String.compare.
    rewrite digit_char_compare by (apply N.mod_lt; lia).
    pose proof (N.div_mod a 10 ltac:(lia)) as Da.
    pose proof (N.div_mod b 10 ltac:(lia)) as Db.
    pose proof (N.mod_lt a 10 ltac:(lia)) as Ma.
    pose proof (N.mod_lt b 10 ltac:(lia)) as Mb.
    clear IH Ha Hb Ha' Hb'.
    revert Da Db Ma Mb.
    generalize (a / 10)%N (a mod 10)%N (b / 10)%N (b mod 10)%N.
    intros qa ra qb rb Da Db Ma Mb.
    destruct (N.compare_spec qa qb) as [E|L|G].
    + destruct (N.compare_spec ra rb) as [E'|L'|G'].
      * assert (H : a = b) by lia. rewrite H. now rewrite N.compare_refl.
      * assert (H : (a < b)%N) by lia. apply N.compare_lt_iff in H. now rewrite H.
      * assert (H : (b < a)%N) by lia. apply N.compare_gt_iff in H. now rewrite H.
    + assert (H : (a < b)%N) by lia. apply N.compare_lt_iff in H. now rewrite H.
    + assert (H : (b < a)%N) by lia. apply N.compare_gt_iff in H. now rewrite H.
Qed.

Lemma hyphen_compare (s t : string) :
  String.compare ("-" ++ s) ("-" ++ t) = String.compare s t.
Proof. reflexivity. Qed.

Lemma isoformat_compare (a b : Date) :
  valid_date a -> valid_date b ->
  String.compare (isoformat a) (isoformat b) = date_compare a b.
Proof.
  intros [Hy [Hm Hd]] [Hy' [Hm' Hd']]. unfold isoformat, date_compare.
  rewrite fixed_dec_compare by (simpl; lia).
  destruct (year a ?= year b)%N; try reflexivity.
  rewrite hyphen_compare, fixed_dec_compare by (simpl; lia).
  destruct (month a ?= month b)%N; try reflexivity.
  rewrite hyphen_compare.
  rewrite <- (append_nil_r (fixed_dec 2 (day a))),
    <- (append_nil_r (fixed_dec 2 (day b))).
  rewrite fixed_dec_compare by (simpl; lia).
  now destruct (day a ?= day b)%N.
Qed.

(** ** Dictionaries *)

Section DictFacts.

Context {K V : Type} (eqb : K -> K -> bool).
Hypothesis eqb_eq : forall a b, eqb a b = true <-> a = b.

Lemma key_eqb_refl (k : K) : eqb k k = true.
Proof. now apply eqb_eq. Qed.

Lemma dict_lookup_set (k k' : K) (v : V) (d : list (K * V)) :
  dict_lookup eqb k (dict_set eqb k' v d)
  = if eqb k k' then Some v else dict_lookup eqb k d.
Proof.
  induction d as [|[k1 v1] d IH]; simpl; [reflexivity|].
  destruct (eqb k' k1) eqn:E1; simpl.
  - apply eqb_eq in E1. subst k1. now destruct (eqb k k').
  - rewrite IH. destruct (eqb k k1) eqn:E2; [|reflexivity].
    apply eqb_eq in E2. subst k1.
    destruct (eqb k k') eqn:E3; [|reflexivity].
    apply eqb_eq in E3. subst k'. rewrite key_eqb_refl in E1. discriminate.
Qed.

Lemma dict_mem_In (k : K) (d : list (K * V)) :
  dict_mem eqb k d = true <-> In k (keys d).
Proof.
  unfold dict_mem. induction d as [|[k1 v1] d IH]; simpl.
  - split; [discriminate|tauto].
  - destruct (eqb k k1) eqn:E.
    + apply eqb_eq in E. subst. tauto.
    + rewrite IH. split; [tauto|]. intros [->|H]; [|exact H].
      rewrite key_eqb_refl in E. discriminate.
Qed.

Lemma keys_dict_set (k : K) (v : V) (d : list (K * V)) :
  keys (dict_set eqb k v d)
  = if dict_mem eqb k d then keys d else (keys d ++ [k])%list.
Proof.
  unfold dict_mem. induction d as [|[k1 v1] d IH]; simpl; [reflexivity|].
  destruct (eqb k k1) eqn:E; simpl; [reflexivity|].
  rewrite IH. now destruct (dict_lookup eqb k d).
Qed.

Lemma keys_dict_set_In (k k' : K) (v : V) (d : list (K * V)) :
  In k' (keys (dict_set eqb k v d)) <-> k' = k \/ In k' (keys d).
Proof.
  rewrite keys_dict_set. destruct (dict_mem eqb k d) eqn:E.
  - apply dict_mem_In in E. split; [tauto|]. intros [->|H]; assumption.
  - rewrite in_app_iff. simpl. split; intros H; intuition congruence.
Qed.

Lemma NoDup_keys_dict_set (k : K) (v : V) (d : list (K * V)) :
  NoDup (keys d) -> NoDup (keys (dict_set eqb k v d)).
Proof.
  intro H. rewrite keys_dict_set. destruct (dict_mem eqb k d) eqn:E; [exact H|].
  apply NoDup_app; [exact H|repeat constructor; simpl; tauto|].
  intros x Hx [<-|[]]. apply dict_mem_In in Hx. congruence.
Qed.

Lemma dict_set_values (k k' : K) (v v' : V) (d : list (K * V)) :
  In (k', v') (dict_set eqb k v d) -> (k', v') = (k, v) \/ In (k', v') d.
Proof.
  induction d as [|[k1 v1] d IH]; simpl.
  - intros [H|[]]. now left.
  - destruct (eqb k k1) eqn:E; simpl.
    + apply eqb_eq in E. subst k1. intros [H|H]; auto.
    + intros [H|H]; auto. apply IH in H. tauto.
Qed.

Lemma dict_lookup_Some_In (k : K) (v : V) (d : list (K * V)) :
  dict_lookup eqb k d = Some v -> In (k, v) d.
Proof.
  induction d as [|[k1 v1] d IH]; simpl; [discriminate|].
  destruct (eqb k k1) eqn:E.
  - apply eqb_eq in E. subst. intros [= ->]. now left.
  - intro H. right. now apply IH.
Qed.

Section Comprehension.

Context {A : Type} (kf : A -> K) (vf : A -> V).

Lemma dict_comprehension_snoc (l : list A) (x : A) :
  dict_comprehension eqb kf vf (l ++ [x])
  = dict_set eqb (kf x) (vf x) (dict_comprehension eqb kf vf l).
Proof. unfold dict_comprehension. now rewrite fold_left_app. Qed.

Lemma find_last_snoc (p : A -> bool) (l : list A) (x : A) :
  find_last p (l ++ [x]) = if p x then Some x else find_last p l.
Proof.
  induction l as [|y l IH]; simpl; [reflexivity|].
  rewrite IH. now destruct (p x).
Qed.

Lemma NoDup_keys_comprehension (l : list A) :
  NoDup (keys (dict_comprehension eqb kf vf l)).
Proof.
  induction l as [|x l IH] using rev_ind; [constructor|].
  rewrite dict_comprehension_snoc. now apply NoDup_keys_dict_set.
Qed.

Lemma keys_comprehension_In (l : list A) (k : K) :
  In k (keys (dict_comprehension eqb kf vf l)) <-> In k (map kf l).
Proof.
  induction l as [|x l IH] using rev_ind; [reflexivity|].
  rewrite dict_comprehension_snoc, keys_dict_set_In, IH, map_app, in_app_iff.
  simpl. intuition congruence.
Qed.

Lemma comprehension_values (l : list A) (k : K) (v : V) :
  In (k, v) (dict_comprehension eqb kf vf l) ->
  exists x, In x l /\ k = kf x /\ v = vf x.
Proof.
  induction l as [|x l IH] using rev_ind; [intros []|].
  rewrite dict_comprehension_snoc. intro H.
  apply dict_set_values in H. destruct H as [[= -> ->]|H].
  - exists x. rewrite in_app_iff. simpl. tauto.
  - destruct (IH H) as [y [Hy E]]. exists y. rewrite in_app_iff. tauto.
Qed.

(** Looking a key up gives the value of the last element that has it. *)
Lemma dict_lookup_comprehension (l : list A) (k : K) :
  dict_lookup eqb k (dict_comprehension eqb kf vf l)
  = option_map vf (find_last (fun x => eqb k (kf x)) l).
Proof.
  induction l as [|x l IH] using rev_ind; [reflexivity|].
  rewrite dict_comprehension_snoc, dict_lookup_set, find_last_snoc, IH.
  now destruct (eqb k (kf x)).
Qed.

Lemma comprehension_nonempty (l : list A) :
  l <> [] -> dict_comprehension eqb kf vf l <> [].
Proof.
  destruct l as [|x l] using rev_ind; [congruence|]. intros _.
  rewrite dict_comprehension_snoc.
  destruct (dict_comprehension eqb kf vf l) as [|[k1 v1] d]; simpl;
    [discriminate|].
  destruct (eqb (kf x) k1); discriminate.
Qed.

End Comprehension.

End DictFacts.

(** ** Dictionaries filled in the order of their keys *)

Lemma StronglySorted_snoc_inv {A : Type} (R : A -> A -> Prop) (l : list A) (x : A) :
  StronglySorted R (l ++ [x]) -> StronglySorted R l /\ Forall (fun y => R y x) l.
Proof.
  induction l as [|y l IH]; simpl; intro H.
  - split; constructor.
  - apply StronglySorted_inv in H. destruct H as [H1 H2].
    destruct (IH H1) as [H3 H4]. rewrite Forall_app in H2.
    destruct H2 as [H2 H5]. split.
    + now constructor.
    + constructor; [now inversion H5|exact H4].
Qed.

Lemma StronglySorted_snoc {A : Type} (R : A -> A -> Prop) (l : list A) (x : A) :
  StronglySorted R l -> Forall (fun y => R y x) l -> StronglySorted R (l ++ [x]).
Proof.
  induction l as [|y l IH]; simpl; intros H1 H2.
  - repeat constructor.
  - apply StronglySorted_inv in H1. destruct H1 as [H1 H3].
    inversion H2; subst. constructor; [now apply IH|].
    rewrite Forall_app. split; [exact H3|now repeat constructor].
Qed.

Lemma StronglySorted_filter {A : Type} (R : A -> A -> Prop) (p : A -> bool)
  (l : list A) :
  StronglySorted R l -> StronglySorted R (filter p l).
Proof.
  induction l as [|y l IH]; simpl; intro H; [constructor|].
  apply StronglySorted_inv in H. destruct H as [H1 H2].
  destruct (p y); [|now apply IH].
  constructor; [now apply IH|].
  rewrite Forall_forall in *. intros z Hz. apply filter_In in Hz. now apply H2.
Qed.

Section SortedKeys.

Context {K V : Type} (eqb ltb : K -> K -> bool).
Hypothesis eqb_eq : forall a b, eqb a b = true <-> a = b.
Hypothesis ltb_irrefl : forall a, ltb a a = false.
Hypothesis ltb_trans :
  forall a b c, ltb a b = true -> ltb b c = true -> ltb a c = true.

Lemma keys_filter (k : K) (d : list (K * V)) :
  keys (filter (fun x => negb (eqb k (fst x))) d)
  = filter (fun k' => negb (eqb k k')) (keys d).
Proof.
  induction d as [|[k1 v1] d IH]; simpl; [reflexivity|].
  destruct (eqb k k1); simpl; now rewrite IH.
Qed.

(** Assigning a key that is not below any key of the dictionary puts it
    last. *)
Lemma dict_set_last (k : K) (v : V) (d : list (K * V)) :
  increasing ltb (keys d) ->
  Forall (fun k' => ltb k' k = true \/ k' = k) (keys d) ->
  dict_set eqb k v d
  = (filter (fun x => negb (eqb k (fst x))) d ++ [(k, v)])%list.
Proof.
  induction d as [|[k1 v1] d IH]; simpl; intros Hs Hb; [reflexivity|].
  apply StronglySorted_inv in Hs. destruct Hs as [Hs Hlt].
  inversion Hb as [|? ? Hk1 Hb']; subst.
  destruct (eqb k k1) eqn:E; simpl.
  - apply eqb_eq in E. subst k1.
    destruct d as [|[k2 v2] d]; [reflexivity|]. exfalso.
    inversion Hlt as [|? ? H12 _]; subst.
    inversion Hb' as [|? ? H2 _]; subst. simpl in *.
    destruct H2 as [H2| ->].
    + pose proof (ltb_trans _ _ _ H12 H2) as H. now rewrite ltb_irrefl in H.
    + now rewrite ltb_irrefl in H12.
  - now rewrite (IH Hs Hb').
Qed.

Lemma keys_dict_set_increasing (k : K) (v : V) (d : list (K * V)) :
  increasing ltb (keys d) ->
  Forall (fun k' => ltb k' k = true \/ k' = k) (keys d) ->
  increasing ltb (keys (dict_set eqb k v d)).
Proof.
  intros Hs Hb. rewrite (dict_set_last k v d Hs Hb).
  unfold keys at 1. rewrite map_app. fold (keys (filter (fun x => negb (eqb k (fst x))) d)).
  rewrite keys_filter. simpl.
  apply StronglySorted_snoc; [now apply StronglySorted_filter|].
  rewrite Forall_forall in *. intros k' Hk'. apply filter_In in Hk'.
  destruct Hk' as [Hin Hne]. destruct (Hb k' Hin) as [H| ->]; [exact H|].
  rewrite (proj2 (eqb_eq k k) eq_refl) in Hne. discriminate.
Qed.

Section SortedComprehension.

Context {A : Type} (kf : A -> K) (vf : A -> V).

Lemma comprehension_bounded (l : list A) (x : A) :
  Forall (fun y => ltb (kf y) (kf x) = true \/ kf y = kf x) l ->
  Forall (fun k' => ltb k' (kf x) = true \/ k' = kf x)
    (keys (dict_comprehension eqb kf vf l)).
Proof.
  intro H. rewrite Forall_forall in *. intros k Hk.
  apply (keys_comprehension_In eqb eqb_eq kf vf) in Hk.
  apply in_map_iff in Hk. destruct Hk as [y [<- Hy]]. now apply H.
Qed.

Lemma comprehension_increasing (l : list A) :
  nondecreasing ltb kf l ->
  increasing ltb (keys (dict_comprehension eqb kf vf l)).
Proof.
  induction l as [|x l IH] using rev_ind; intro H; [constructor|].
  apply StronglySorted_snoc_inv in H. destruct H as [Hl Hx].
  rewrite dict_comprehension_snoc.
  apply keys_dict_set_increasing; [now apply IH|now apply comprehension_bounded].
Qed.

Lemma comprehension_snoc_sorted (l : list A) (x : A) :
  nondecreasing ltb kf (l ++ [x]) ->
  dict_comprehension eqb kf vf (l ++ [x])
  = (filter (fun y => negb (eqb (kf x) (fst y))) (dict_comprehension eqb kf vf l)
       ++ [(kf x, vf x)])%list.
Proof.
  intro H. apply StronglySorted_snoc_inv in H. destruct H as [Hl Hx].
  rewrite dict_comprehension_snoc.
  apply dict_set_last;
    [now apply comprehension_increasing|now apply comprehension_bounded].
Qed.

End SortedComprehension.

End SortedKeys.

Lemma find_last_filter {A : Type} (p q : A -> bool) (l : list A) :
  (forall y, In y l -> p y = true -> q y = true) ->
  find_last p (filter q l) = find_last p l.
Proof.
  induction l as [|x l IH]; simpl; intro H; [reflexivity|].
  destruct (q x) eqn:Q; simpl; rewrite IH by auto; [reflexivity|].
  destruct (find_last p l); [reflexivity|].
  destruct (p x) eqn:P; [|reflexivity].
  rewrite (H x (or_introl eq_refl) P) in Q. discriminate.
Qed.

Lemma find_last_ext {A : Type} (p q : A -> bool) (l : list A) :
  (forall y, In y l -> p y = q y) -> find_last p l = find_last q l.
Proof.
  induction l as [|x l IH]; simpl; intro H; [reflexivity|].
  rewrite IH by auto. now rewrite (H x (or_introl eq_refl)).
Qed.

Lemma find_last_In {A : Type} (p : A -> bool) (l : list A) (x : A) :
  find_last p l = Some x -> In x l /\ p x = true.
Proof.
  induction l as [|y l IH]; simpl; [discriminate|].
  destruct (find_last p l) as [z|].
  - intros [= ->]. destruct (IH eq_refl). tauto.
  - destruct (p y) eqn:P; [|discriminate]. intros [= ->]. tauto.
Qed.

(** ** Dates and time stamps *)

Lemma date_eqb_eq (a b : Date) : date_eqb a b = true <-> a = b.
Proof.
  destruct a as [y m d], b as [y' m' d']. unfold date_eqb. simpl.
  rewrite !andb_true_iff, !N.eqb_eq. split.
  - intros [[-> ->] ->]. reflexivity.
  - intros [= -> -> ->]. tauto.
Qed.

Lemma ts_eqb_eq (a b : Timestamp) : ts_eqb a b = true <-> a = b.
Proof.
  destruct a as [d t], b as [d' t']. unfold ts_eqb. simpl.
  rewrite andb_true_iff, date_eqb_eq, N.eqb_eq. split.
  - intros [-> ->]. reflexivity.
  - intros [= -> ->]. tauto.
Qed.

Lemma date_ltb_compare (a b : Date) :
  date_ltb a b = match date_compare a b with Lt => true | _ => false end.
Proof.
  unfold date_ltb, date_compare.
  destruct (N.compare_spec (year a) (year b)) as [E|L|G].
  - rewrite E, N.ltb_irrefl, N.eqb_refl. simpl.
    destruct (N.compare_spec (month a) (month b)) as [E'|L'|G'].
    + rewrite E', N.ltb_irrefl, N.eqb_refl. simpl. apply N.ltb_compare.
    + now rewrite (proj2 (N.ltb_lt _ _) L').
    + rewrite (proj2 (N.ltb_ge _ _)) by lia.
      now rewrite (proj2 (N.eqb_neq _ _)) by lia.
  - now rewrite (proj2 (N.ltb_lt _ _) L).
  - rewrite (proj2 (N.ltb_ge _ _)) by lia.
    now rewrite (proj2 (N.eqb_neq _ _)) by lia.
Qed.

Lemma date_compare_eq (a b : Date) : date_compare a b = Eq <-> a = b.
Proof.
  destruct a as [y m d], b as [y' m' d']. unfold date_compare. simpl. split.
  - destruct (N.compare_spec y y'); try discriminate.
    destruct (N.compare_spec m m'); try discriminate.
    destruct (N.compare_spec d d'); try discriminate.
    intros _. congruence.
  - intros [= -> -> ->]. now rewrite !N.compare_refl.
Qed.

Lemma date_ltb_irrefl (a : Date) : date_ltb a a = false.
Proof.
  rewrite date_ltb_compare. now rewrite (proj2 (date_compare_eq a a) eq_refl).
Qed.

Lemma date_ltb_trans (a b c : Date) :
  date_ltb a b = true -> date_ltb b c = true -> date_ltb a c = true.
Proof.
  unfold date_ltb. rewrite !orb_true_iff, !andb_true_iff, !orb_true_iff,
    !andb_true_iff, !N.ltb_lt, !N.eqb_eq. lia.
Qed.

Lemma ts_ltb_irrefl (a : Timestamp) : ts_ltb a a = false.
Proof.
  unfold ts_ltb. rewrite date_ltb_irrefl, N.ltb_irrefl. now rewrite andb_false_r.
Qed.

Lemma ts_ltb_trans (a b c : Timestamp) :
  ts_ltb a b = true -> ts_ltb b c = true -> ts_ltb a c = true.
Proof.
  unfold ts_ltb. rewrite !orb_true_iff, !andb_true_iff, !date_eqb_eq, !N.ltb_lt.
  intros [H1|[E1 L1]] [H2|[E2 L2]].
  - left. now apply (date_ltb_trans _ (ts_date b)).
  - left. now rewrite <- E2.
  - left. now rewrite E1.
  - right. split; [congruence|lia].
Qed.

Lemma ts_leb_cases (a b : Timestamp) :
  ts_leb a b = true -> ts_ltb a b = true \/ a = b.
Proof.
  unfold ts_leb. rewrite orb_true_iff, ts_eqb_eq. tauto.
Qed.

Lemma ts_ltb_date (a b : Timestamp) :
  ts_ltb a b = true ->
  date_ltb (ts_date a) (ts_date b) = true \/ ts_date a = ts_date b.
Proof.
  unfold ts_ltb. rewrite orb_true_iff, andb_true_iff, date_eqb_eq. tauto.
Qed.

Lemma isoformat_ltb (a b : Date) :
  valid_date a -> valid_date b ->
  String.ltb (isoformat a) (isoformat b) = date_ltb a b.
Proof.
  intros Ha Hb. unfold String.ltb.
  now rewrite isoformat_compare, date_ltb_compare.
Qed.

Lemma isoformat_eqb (a b : Date) :
  valid_date a -> valid_date b ->
  String.eqb (isoformat a) (isoformat b) = date_eqb a b.
Proof.
  intros Ha Hb.
  destruct (String.eqb_spec (isoformat a) (isoformat b)) as [E|N];
    destruct (date_eqb a b) eqn:D; try reflexivity.
  - pose proof (isoformat_compare a b Ha Hb) as C.
    rewrite E, string_compare_refl in C. symmetry in C.
    apply date_compare_eq in C. apply date_eqb_eq in C. congruence.
  - apply date_eqb_eq in D. now subst.
Qed.

Lemma isoformat_injective (a b : Date) :
  valid_date a -> valid_date b -> isoformat a = isoformat b -> a = b.
Proof.
  intros Ha Hb E. apply date_eqb_eq. rewrite <- (isoformat_eqb a b Ha Hb).
  now apply String.eqb_eq.
Qed.

Lemma iso_shape_isoformat (d : Date) : iso_shape (isoformat d) = true.
Proof.
  unfold iso_shape, isoformat. cbn [fixed_dec append list_ascii_of_string forallb].
  rewrite !is_digit_digit_char by (apply N.mod_lt; lia).
  reflexivity.
Qed.

(** ** [min] and [max] of the keys *)

Lemma fold_min_spec (l : list string) :
  forall x,
    let m := fold_left (fun m y => if String.ltb y m then y else m) l x in
    In m (x :: l) /\ forall k, In k (x :: l) -> String.leb m k = true.
Proof.
  induction l as [|y l IH]; intros x; simpl.
  - split; [now left|]. intros k [Ek|[]]. subst. apply string_leb_refl.
  - destruct (IH (if String.ltb y x then y else x)) as [Hin Hle].
    simpl in Hin, Hle.
    assert (Hm := Hle _ (or_introl eq_refl)).
    destruct (String.ltb y x) eqn:L.
    + split; [tauto|]. intros k [Ek|[Ek|Hk]]; subst; auto.
      apply (string_leb_trans _ y); [exact Hm|].
      rewrite string_leb_ltb, L. reflexivity.
    + split; [tauto|]. intros k [Ek|[Ek|Hk]]; subst; auto.
      apply (string_leb_trans _ x); [exact Hm|].
      now apply string_ltb_false_leb.
Qed.

Lemma fold_max_spec (l : list string) :
  forall x,
    let m := fold_left (fun m y => if String.ltb m y then y else m) l x in
    In m (x :: l) /\ forall k, In k (x :: l) -> String.leb k m = true.
Proof.
  induction l as [|y l IH]; intros x; simpl.
  - split; [now left|]. intros k [Ek|[]]. subst. apply string_leb_refl.
  - destruct (IH (if String.ltb x y then y else x)) as [Hin Hle].
    simpl in Hin, Hle.
    assert (Hm := Hle _ (or_introl eq_refl)).
    destruct (String.ltb x y) eqn:L.
    + split; [tauto|]. intros k [Ek|[Ek|Hk]]; subst; auto.
      apply (string_leb_trans _ y); [|exact Hm].
      rewrite string_leb_ltb, L. reflexivity.
    + split; [tauto|]. intros k [Ek|[Ek|Hk]]; subst; auto.
      apply (string_leb_trans _ x); [|exact Hm].
      now apply string_ltb_false_leb.
Qed.

Lemma py_min_spec (l : list string) :
  l <> [] ->
  exists m, py_min l = Ok m /\ In m l
            /\ forall k, In k l -> String.leb m k = true.
Proof.
  destruct l as [|x l]; [congruence|]. intros _.
  eexists. split; [reflexivity|]. apply fold_min_spec.
Qed.

Lemma py_max_spec (l : list string) :
  l <> [] ->
  exists m, py_max l = Ok m /\ In m l
            /\ forall k, In k l -> String.leb k m = true.
Proof.
  destruct l as [|x l]; [congruence|]. intros _.
  eexists. split; [reflexivity|]. apply fold_max_spec.
Qed.

Lemma dict_getitem_key (d : list (string * Q)) (k : string) :
  In k (keys d) ->
  exists v, dict_getitem d k = Ok v /\ dict_lookup String.eqb k d = Some v.
Proof.
  intro H. apply (dict_mem_In String.eqb String.eqb_eq) in H.
  unfold dict_mem, dict_getitem in *.
  destruct (dict_lookup String.eqb k d) as [v|]; [|discriminate].
  now exists v.
Qed.

(** ** The historical record *)

Lemma to_dict_incl (hist : History) (s : Timestamp * Q) :
  In s (to_dict hist) -> In s hist.
Proof.
  destruct s as [k v]. intro H.
  apply (comprehension_values ts_eqb ts_eqb_eq) in H.
  destruct H as [[k' v'] [Hin [-> ->]]]. exact Hin.
Qed.

Lemma to_dict_dates (hist : History) (d : Date) :
  In d (map sample_date (to_dict hist)) <-> In d (map sample_date hist).
Proof.
  rewrite !in_map_iff. split.
  - intros [s [<- Hs]]. exists s. split; [reflexivity|now apply to_dict_incl].
  - intros [s [<- Hs]].
    assert (Hk : In (fst s) (keys (to_dict hist))).
    { apply (keys_comprehension_In ts_eqb ts_eqb_eq). now apply in_map. }
    apply in_map_iff in Hk. destruct Hk as [s' [E Hs']].
    exists s'. split; [|exact Hs']. unfold sample_date. now rewrite E.
Qed.

Lemma format_data_keys (data : list (Timestamp * Q)) (k : string) :
  In k (keys (format_data data))
  <-> exists d, In d (map sample_date data) /\ k = isoformat d.
Proof.
  unfold format_data.
  rewrite (keys_comprehension_In String.eqb String.eqb_eq), in_map_iff.
  split.
  - intros [s [<- Hs]]. exists (sample_date s). split; [|reflexivity].
    now apply in_map.
  - intros [d [Hd ->]]. apply in_map_iff in Hd. destruct Hd as [s [<- Hs]].
    now exists s.
Qed.

(** The run on a series that is not empty: both calls are made, nothing
    raises, and the record is serialized. *)
Lemma get_historical_stock_price_run (yf : YFinance)
  (json_dumps : HistResult -> string) (symbol period interval : string)
  (stock : Ticker) (hist : History) (log : list Call) :
  yf symbol = Ok stock ->
  history stock period interval = Ok hist ->
  hist <> [] ->
  exists fd ld fp lp,
    py_min (keys (format_data (to_dict hist))) = Ok fd
    /\ py_max (keys (format_data (to_dict hist))) = Ok ld
    /\ dict_lookup String.eqb fd (format_data (to_dict hist)) = Some fp
    /\ dict_lookup String.eqb ld (format_data (to_dict hist)) = Some lp
    /\ get_historical_stock_price yf json_dumps symbol period interval log
       = (Ok (json_dumps
                {| r_symbol := upper symbol;
                   r_period := period;
                   r_interval := interval;
                   data_points := List.length (format_data (to_dict hist));
                   first_date := fd;
                   last_date := ld;
                   first_price := fp;
                   last_price := lp;
                   data := format_data (to_dict hist) |}),
          (log ++ [CallTicker symbol; CallHistory period interval])%list).
Proof.
  intros Hyf Hh Hne.
  assert (Hk : keys (format_data (to_dict hist)) <> []).
  { assert (H : format_data (to_dict hist) <> [])
      by (apply comprehension_nonempty; now apply comprehension_nonempty).
    destruct (format_data (to_dict hist)); [congruence|discriminate]. }
  destruct (py_min_spec _ Hk) as [fd [Emin [Hfd _]]].
  destruct (py_max_spec _ Hk) as [ld [Emax [Hld _]]].
  destruct (dict_getitem_key _ _ Hfd) as [fp [Gfp Lfp]].
  destruct (dict_getitem_key _ _ Hld) as [lp [Glp Llp]].
  exists fd, ld, fp, lp. repeat (split; [assumption|]).
  unfold get_historical_stock_price, try_except, bind, call, lift, ret.
  rewrite Hyf, Hh.
  destruct hist as [|s hist]; [congruence|]. cbn [hist_empty].
  rewrite Emin, Emax, Gfp, Glp. now rewrite <- app_assoc.
Qed.

Lemma StronglySorted_impl_In {A : Type} (R R' : A -> A -> Prop) (l : list A) :
  (forall a b, In a l -> In b l -> R a b -> R' a b) ->
  StronglySorted R l -> StronglySorted R' l.
Proof.
  induction l as [|x l IH]; intros Himp H; [constructor|].
  apply StronglySorted_inv in H. destruct H as [H1 H2]. constructor.
  - apply IH; [|exact H1]. intros a b Ha Hb. apply Himp; now right.
  - rewrite Forall_forall in *. intros y Hy.
    apply Himp; [now left|now right|now apply H2].
Qed.


Lemma NoDup_map_injective_on {A B : Type} (f : A -> B) (l : list A) :
  (forall x y, In x l -> In y l -> f x = f y -> x = y) ->
  NoDup l -> NoDup (map f l).
Proof.
  induction l as [|x l IH]; simpl; intros Hinj H; [constructor|].
  inversion H as [|? ? Hx Hl]; subst. constructor.
  - rewrite in_map_iff. intros [y [E Hy]].
    apply Hinj in E; [|now right|now left]. now subst.
  - apply IH; [|exact Hl]. intros a b Ha Hb. apply Hinj; now right.
Qed.

Lemma chronological_nondecreasing (hist : History) :
  chronological hist -> nondecreasing ts_ltb fst hist.
Proof.
  apply StronglySorted_impl_In. intros a b _ _. apply ts_leb_cases.
Qed.


Lemma valid_to_dict (hist : History) :
  valid_history hist -> valid_history (to_dict hist).
Proof.
  unfold valid_history. rewrite !Forall_forall. intros H s Hs.
  apply H. now apply to_dict_incl.
Qed.






Lemma format_data_entries (hist : History) (k : string) (v : Q) :
  In (k, v) (format_data (to_dict hist)) ->
  two_decimals v /\ iso_shape k = true
  /\ exists s, In s hist /\ k = isoformat (sample_date s) /\ v = round2 (snd s).
Proof.
  intro H. apply (comprehension_values String.eqb String.eqb_eq) in H.
  destruct H as [s [Hs [-> ->]]]. split; [|split].
  - now exists (cents (snd s)).
  - apply iso_shape_isoformat.
  - exists s. split; [now apply to_dict_incl|]. now split.
Qed.

(** C6: when the data source returns an empty series,
    [get_historical_stock_price] raises an error that names the symbol, the
    period and the interval. *)
Theorem C6_no_historical_data (yf : YFinance) (json_dumps : HistResult -> string)
  (symbol period interval : string) (stock : Ticker) (log : list Call) :
  yf symbol = Ok stock ->
  history stock period interval = Ok [] ->
  get_historical_stock_price yf json_dumps symbol period interval log
  = (Raise (ValueError
       ("No historical data available for " ++ symbol ++ " with period "
          ++ period ++ " and interval " ++ interval)),
     (log ++ [CallTicker symbol; CallHistory period interval])%list).
Proof.
  intros Hyf Hh.
  unfold get_historical_stock_price, try_except, bind, call.
  rewrite Hyf, Hh. simpl. now rewrite <- app_assoc.
Qed.

Lemma C6_no_historical_data_witness :
  get_historical_stock_price yf_empty show_result "TSLA" "5d" "1h" []
  = (Raise (ValueError
       "No historical data available for TSLA with period 5d and interval 1h"),
     [CallTicker "TSLA"; CallHistory "5d" "1h"]).
Proof.
  apply (C6_no_historical_data yf_empty show_result "TSLA" "5d" "1h"
           (ticker_of [] []) []); reflexivity.
Defined.

(** ** The symbol of the record *)







(** ** Several samples on one date *)

Lemma dict_set_fresh {K V : Type} (eqb : K -> K -> bool) (k : K) (v : V)
  (d : list (K * V)) :
  dict_mem eqb k d = false -> dict_set eqb k v d = (d ++ [(k, v)])%list.
Proof.
  unfold dict_mem. induction d as [|[k1 v1] d IH]; simpl; [reflexivity|].
  destruct (eqb k k1); [discriminate|]. intro H. now rewrite IH.
Qed.

Lemma to_dict_distinct (hist : History) :
  NoDup (map fst hist) -> to_dict hist = hist.
Proof.
  unfold to_dict. induction hist as [|x hist IH] using rev_ind; intro H;
    [reflexivity|].
  rewrite map_app in H. simpl in H. apply NoDup_remove in H.
  destruct H as [H1 H2]. rewrite app_nil_r in H1, H2.
  rewrite dict_comprehension_snoc, IH by exact H1.
  rewrite dict_set_fresh; [now destruct x|].
  destruct (dict_mem ts_eqb (fst x) hist) eqn:E; [|reflexivity].
  apply (dict_mem_In ts_eqb ts_eqb_eq) in E. now contradiction H2.
Qed.

Lemma find_last_to_dict (hist : History) (d : Date) :
  ordered_or_distinct hist ->
  find_last (fun s => date_eqb d (sample_date s)) (to_dict hist)
  = find_last (fun s => date_eqb d (sample_date s)) hist.
Proof.
  intros [Hc|Hn]; [|now rewrite to_dict_distinct].
  apply chronological_nondecreasing in Hc.
  induction hist as [|x hist IH] using rev_ind; [reflexivity|].
  unfold to_dict.
  rewrite (comprehension_snoc_sorted ts_eqb ts_ltb ts_eqb_eq ts_ltb_irrefl
             ts_ltb_trans fst snd hist x Hc).
  rewrite <- surjective_pairing, !find_last_snoc.
  destruct (date_eqb d (sample_date x)) eqn:E; [reflexivity|].
  apply StronglySorted_snoc_inv in Hc. destruct Hc as [Hc _].
  rewrite <- (IH Hc). apply find_last_filter.
  intros y _ Hy. apply negb_true_iff.
  destruct (ts_eqb (fst x) (fst y)) eqn:T; [|reflexivity].
  apply ts_eqb_eq in T. unfold sample_date in *. rewrite T in E. congruence.
Qed.

(** The value under a date is the rounded close of the last sample of that
    date. *)
Lemma format_data_lookup (hist : History) (d : Date) :
  valid_history hist -> valid_date d -> ordered_or_distinct hist ->
  dict_lookup String.eqb (isoformat d) (format_data (to_dict hist))
  = option_map (fun s => round2 (snd s)) (last_sample_on d hist).
Proof.
  intros Hv Hd Ho. unfold format_data, last_sample_on.
  rewrite (dict_lookup_comprehension String.eqb String.eqb_eq).
  rewrite <- (find_last_to_dict hist d Ho). f_equal.
  apply find_last_ext. intros y Hy.
  apply isoformat_eqb; [exact Hd|].
  apply valid_to_dict in Hv. unfold valid_history in Hv.
  rewrite Forall_forall in Hv. now apply (Hv y).
Qed.

(** There are as many keys as calendar dates in the series. *)
Lemma format_data_length (hist : History) :
  valid_history hist ->
  List.length (format_data (to_dict hist)) = List.length (distinct_dates hist).
Proof.
  intro Hv. unfold valid_history in Hv. rewrite Forall_forall in Hv.
  assert (Hvd : forall d, In d (distinct_dates hist) -> valid_date d).
  { intros d Hd. apply nodup_In, in_map_iff in Hd.
    destruct Hd as [s [<- Hs]]. now apply Hv. }
  assert (N1 : NoDup (keys (format_data (to_dict hist))))
    by apply (NoDup_keys_comprehension String.eqb String.eqb_eq).
  assert (N2 : NoDup (map isoformat (distinct_dates hist))).
  { apply NoDup_map_injective_on; [|apply NoDup_nodup].
    intros a b Ha Hb. apply isoformat_injective; now apply Hvd. }
  assert (Hiff : forall k, In k (keys (format_data (to_dict hist)))
                           <-> In k (map isoformat (distinct_dates hist))).
  { intro k. rewrite format_data_keys, in_map_iff. split.
    - intros [d [Hd ->]]. exists d. split; [reflexivity|].
      apply nodup_In. now apply to_dict_dates.
    - intros [d [<- Hd]]. exists d. split; [|reflexivity].
      apply to_dict_dates. now apply nodup_In in Hd. }
  rewrite <- (length_map fst (format_data (to_dict hist))).
  rewrite <- (length_map isoformat (distinct_dates hist)).
  apply Nat.le_antisymm; apply NoDup_incl_length; try assumption;
    intros k Hk; now apply Hiff.
Qed.

(** C10: when several samples of the series fall on one calendar date, the
    value kept under that date is the rounded close of the last of them
    (for a series in chronological order, or without a repeated time stamp),
    and [data_points] is the number of distinct calendar dates. *)
Theorem C10_last_sample_per_date (yf : YFinance)
  (json_dumps : HistResult -> string) (symbol period interval : string)
  (stock : Ticker) (hist : History) (log : list Call) :
  yf symbol = Ok stock ->
  history stock period interval = Ok hist ->
  hist <> [] ->
  valid_history hist ->
  exists r,
    get_historical_stock_price yf json_dumps symbol period interval log
    = (Ok (json_dumps r),
       (log ++ [CallTicker symbol; CallHistory period interval])%list)
    /\ data_points r = List.length (distinct_dates hist)
    /\ (ordered_or_distinct hist ->
        forall d, valid_date d ->
          dict_lookup String.eqb (isoformat d) (data r)
          = option_map (fun s => round2 (snd s)) (last_sample_on d hist)).
Proof.
  intros Hyf Hh Hne Hv.
  destruct (get_historical_stock_price_run yf json_dumps symbol period interval
              stock hist log Hyf Hh Hne)
    as [fd [ld [fp [lp [_ [_ [_ [_ Run]]]]]]]].
  eexists. split; [exact Run|]. cbn [data data_points]. split.
  - now apply format_data_length.
  - intros Ho d Hd. now apply format_data_lookup.
Qed.

Lemma C10_last_sample_per_date_witness :
  exists r,
    get_historical_stock_price yf_intraday show_result "aapl" "2d" "1h" []
    = (Ok (show_result r), [CallTicker "aapl"; CallHistory "2d" "1h"])
    /\ data_points r = 2
    /\ dict_lookup String.eqb "2024-01-02" (data r) = Some (18600 # 100)%Q
    /\ dict_lookup String.eqb "2024-01-03" (data r) = Some (18433 # 100)%Q.
Proof.
  destruct (C10_last_sample_per_date yf_intraday show_result "aapl" "2d" "1h"
              (ticker_of [] intraday_history) intraday_history [] eq_refl eq_refl
              ltac:(discriminate)
              ltac:(repeat constructor; simpl; lia))
    as [r [Run [Hn Hl]]].
  assert (Ho : ordered_or_distinct intraday_history)
    by (left; repeat constructor).
  exists r. split; [exact Run|]. split; [exact Hn|]. split.
  - apply (Hl Ho {| year := 2024; month := 1; day := 2 |}).
    repeat split; simpl; lia.
  - apply (Hl Ho {| year := 2024; month := 1; day := 3 |}).
    repeat split; simpl; lia.
Defined.

(** Out of order and with a repeated time stamp the value kept is not that
    of the last sample of the date. *)
Example shuffled_history_keeps_another :
  format_data (to_dict shuffled_history) = [("2024-01-02", 18550 # 100)%Q]
  /\ last_sample_on {| year := 2024; month := 1; day := 2 |} shuffled_history
     = Some (ts 2024 1 2 37800, 187 # 1).
Proof. split; reflexivity. Qed.

(** * Further properties *)

(** ** The tiers of [get_realtime_stock_price] *)

(** The quote tier: what it returns and how often it reads the fields. *)
Lemma price_from_info_run (stock : Ticker) (symbol : string) (log : list Call) :
  price_from_info stock symbol log
  = (Ok (option_map (price_message symbol) (quote_value stock)),
     (log ++ quote_calls stock)%list).
Proof.
  unfold price_from_info, try_except, py_or, stock_info_get, bind, call, ret,
    quote_value, quote_calls.
  destruct (info stock) as [fields|e]; [|reflexivity].
  destruct (truthy (info_get fields "regularMarketPrice")) eqn:T1.
  { destruct (truthy_Some _ T1) as [p ->]. reflexivity. }
  destruct (truthy (info_get fields "currentPrice")) eqn:T2.
  { destruct (truthy_Some _ T2) as [p ->]. now rewrite <- app_assoc. }
  rewrite <- !app_assoc.
  now destruct (info_get fields "lastPrice").
Qed.

(** A history tier: one call, and the last close if there is one. *)
Lemma price_from_history_run (stock : Ticker) (symbol interval : string)
  (log : list Call) :
  price_from_history stock symbol interval log
  = (Ok (option_map (price_message symbol)
           (last_close (history stock "1d" interval))),
     (log ++ [CallHistory "1d" interval])%list).
Proof.
  unfold price_from_history, try_except, bind, call, lift, ret, last_close,
    iloc_last.
  destruct (history stock "1d" interval) as [hist|e]; [|reflexivity].
  destruct hist as [|s hist]; [reflexivity|]. cbn [hist_empty negb].
  destruct (rev (s :: hist)) as [|s' r] eqn:E; [|reflexivity].
  apply (f_equal (@List.length _)) in E. rewrite length_rev in E. discriminate.
Qed.

Lemma quote_silent_value (stock : Ticker) :
  quote_silent stock <-> quote_value stock = None.
Proof.
  unfold quote_silent, quote_value. split.
  - intros [[e ->]|[fields [-> [T1 [T2 L]]]]]; [reflexivity|].
    now rewrite T1, T2.
  - destruct (info stock) as [fields|e]; [|intros _; left; now exists e].
    intro H. right. exists fields. split; [reflexivity|].
    destruct (truthy (info_get fields "regularMarketPrice")) eqn:T1.
    { rewrite H in T1. discriminate. }
    destruct (truthy (info_get fields "currentPrice")) eqn:T2.
    { rewrite H in T2. discriminate. }
    auto.
Qed.

(** The whole of [get_realtime_stock_price] once the ticker is made. *)
Lemma get_realtime_stock_price_run (yf : YFinance) (symbol : string)
  (stock : Ticker) (log : list Call) :
  yf (upper (strip symbol)) = Ok stock ->
  get_realtime_stock_price yf symbol log
  = let sym := upper (strip symbol) in
    match quote_value stock with
    | Some p =>
        (Ok (price_message sym p),
         (log ++ CallTicker sym :: quote_calls stock)%list)
    | None =>
        match last_close (history stock "1d" "1m") with
        | Some p =>
            (Ok (price_message sym p),
             (log ++ CallTicker sym :: quote_calls stock ++ [history_1m])%list)
        | None =>
            match last_close (history stock "1d" "5m") with
            | Some p =>
                (Ok (price_message sym p),
                 (log ++ CallTicker sym :: quote_calls stock
                      ++ [history_1m; history_5m])%list)
            | None =>
                (Raise (ValueError (unavailable_message sym)),
                 (log ++ CallTicker sym :: quote_calls stock
                      ++ [history_1m; history_5m])%list)
            end
        end
    end.
Proof.
  intro Hyf. unfold get_realtime_stock_price, try_except, bind.
  unfold call at 1. rewrite Hyf, price_from_info_run.
  cbv zeta.
  destruct (quote_value stock) as [p|]; cbn [option_map].
  { unfold ret. now rewrite <- app_assoc. }
  rewrite price_from_history_run.
  destruct (last_close (history stock "1d" "1m")) as [p|]; cbn [option_map].
  { unfold ret, history_1m. now rewrite <- !app_assoc. }
  rewrite price_from_history_run.
  destruct (last_close (history stock "1d" "5m")) as [p|]; cbn [option_map];
    unfold ret, raise, history_1m, history_5m, unavailable_message;
    cbn [str_exn]; now rewrite <- !app_assoc.
Qed.

(** X1: when the quote fields give no price and today's one-minute history
    has rows, the price returned is the close of its last row, and the
    five-minute history is not asked for. *)
Theorem realtime_falls_back_to_1m (yf : YFinance) (symbol : string)
  (stock : Ticker) (hist : History) (s : Timestamp * Q) (log : list Call) :
  yf (upper (strip symbol)) = Ok stock ->
  quote_silent stock ->
  history stock "1d" "1m" = Ok (hist ++ [s])%list ->
  get_realtime_stock_price yf symbol log
  = (Ok (price_message (upper (strip symbol)) (snd s)),
     (log ++ CallTicker (upper (strip symbol)) :: quote_calls stock
          ++ [CallHistory "1d" "1m"])%list).
Proof.
  intros Hyf Hq Hh. rewrite (get_realtime_stock_price_run yf symbol stock log Hyf).
  apply quote_silent_value in Hq. cbv zeta. rewrite Hq, Hh.
  unfold last_close. now rewrite rev_app_distr.
Qed.

Lemma realtime_falls_back_to_1m_witness :
  get_realtime_stock_price (yf_of zero_only_ticker) " aapl" []
  = (Ok "Current price of AAPL is $185.57",
     [CallTicker "AAPL"; CallInfo; CallInfo; CallInfo; CallHistory "1d" "1m"]).
Proof.
  apply (realtime_falls_back_to_1m (yf_of zero_only_ticker) " aapl"
           zero_only_ticker [(ts 2024 1 2 34200, 1855 # 10)]
           (ts 2024 1 2 34260, 185567 # 1000) [] eq_refl).
  - right. exists [("regularMarketPrice", Some 0%Q)]. repeat split.
  - reflexivity.
Defined.

(** X2: when the quote fields give no price and the one-minute history
    raises or is empty, a five-minute history with rows gives the price, the
    close of its last row, after both histories were asked for in that
    order. *)
Theorem realtime_falls_back_to_5m (yf : YFinance) (symbol : string)
  (stock : Ticker) (hist : History) (s : Timestamp * Q) (log : list Call) :
  yf (upper (strip symbol)) = Ok stock ->
  quote_silent stock ->
  history_unavailable stock "1m" ->
  history stock "1d" "5m" = Ok (hist ++ [s])%list ->
  get_realtime_stock_price yf symbol log
  = (Ok (price_message (upper (strip symbol)) (snd s)),
     (log ++ CallTicker (upper (strip symbol)) :: quote_calls stock
          ++ [CallHistory "1d" "1m"; CallHistory "1d" "5m"])%list).
Proof.
  intros Hyf Hq H1 Hh.
  rewrite (get_realtime_stock_price_run yf symbol stock log Hyf).
  apply quote_silent_value in Hq. cbv zeta. rewrite Hq, Hh.
  assert (E : last_close (history stock "1d" "1m") = None)
    by (destruct H1 as [[e ->]| ->]; reflexivity).
  rewrite E. unfold last_close. now rewrite rev_app_distr.
Qed.

Lemma realtime_falls_back_to_5m_witness :
  get_realtime_stock_price (yf_of five_minute_ticker) "msft" []
  = (Ok "Current price of MSFT is $186.00",
     [CallTicker "MSFT"; CallInfo; CallInfo; CallInfo; CallHistory "1d" "1m";
      CallHistory "1d" "5m"]).
Proof.
  apply (realtime_falls_back_to_5m (yf_of five_minute_ticker) "msft"
           five_minute_ticker [(ts 2024 1 2 34200, 1855 # 10)]
           (ts 2024 1 2 34500, 185999 # 1000) [] eq_refl).
  - right. exists [("regularMarketPrice", None); ("currentPrice", Some 0%Q)].
    repeat split.
  - left. now exists (LibraryError "rate limited").
  - reflexivity.
Defined.

Lemma format_2f_zero (p : Q) : Qnum p = 0%Z -> format_2f p = "0.00".
Proof.
  destruct p as [n d]. simpl. intros ->. reflexivity.
Qed.

(** X3: the last field of the chain is taken as it is: when
    regularMarketPrice and currentPrice are null or zero, a lastPrice that is
    not null is returned without asking for a history, and a lastPrice of
    zero is shown as $0.00. *)
Theorem realtime_last_price_even_zero (yf : YFinance) (symbol : string)
  (stock : Ticker) (fields : list (string * option Q)) (p : Q)
  (log : list Call) :
  yf (upper (strip symbol)) = Ok stock ->
  info stock = Ok fields ->
  truthy (info_get fields "regularMarketPrice") = false ->
  truthy (info_get fields "currentPrice") = false ->
  info_get fields "lastPrice" = Some p ->
  get_realtime_stock_price yf symbol log
  = (Ok (price_message (upper (strip symbol)) p),
     (log ++ [CallTicker (upper (strip symbol)); CallInfo; CallInfo; CallInfo])%list)
  /\ (Qnum p = 0%Z ->
      price_message (upper (strip symbol)) p
      = "Current price of " ++ upper (strip symbol) ++ " is $0.00").
Proof.
  intros Hyf Hi T1 T2 L. split.
  - rewrite (get_realtime_stock_price_run yf symbol stock log Hyf).
    unfold quote_value, quote_calls. now rewrite Hi, T1, T2, L.
  - intro Hz. unfold price_message. now rewrite format_2f_zero.
Qed.

Lemma realtime_last_price_even_zero_witness :
  get_realtime_stock_price
    (yf_of (ticker_of [("currentPrice", Some 0%Q); ("lastPrice", Some 0%Q)]
              daily_history)) "tsla" []
  = (Ok "Current price of TSLA is $0.00",
     [CallTicker "TSLA"; CallInfo; CallInfo; CallInfo]).
Proof.
  destruct (realtime_last_price_even_zero
              (yf_of (ticker_of [("currentPrice", Some 0%Q); ("lastPrice", Some 0%Q)]
                        daily_history)) "tsla"
              (ticker_of [("currentPrice", Some 0%Q); ("lastPrice", Some 0%Q)]
                 daily_history)
              [("currentPrice", Some 0%Q); ("lastPrice", Some 0%Q)] 0%Q []
              eq_refl eq_refl eq_refl eq_refl eq_refl) as [E Hz].
  rewrite E, (Hz eq_refl). reflexivity.
Defined.

(** When the ticker itself cannot be made, [get_realtime_stock_price]
    raises a ValueError that names the normalized symbol and carries the
    message of the failure, and nothing else is asked of the library. *)
Theorem realtime_ticker_failure (yf : YFinance) (symbol : string) (e : exn)
  (log : list Call) :
  yf (upper (strip symbol)) = Raise e ->
  get_realtime_stock_price yf symbol log
  = (Raise (ValueError ("Failed to fetch price for " ++ upper (strip symbol)
                          ++ ": " ++ str_exn e)),
     (log ++ [CallTicker (upper (strip symbol))])%list).
Proof.
  intro Hyf. unfold get_realtime_stock_price, try_except, bind, call, raise.
  now rewrite Hyf.
Qed.

Lemma realtime_ticker_failure_witness :
  get_realtime_stock_price yf_down " goog " []
  = (Raise (ValueError "Failed to fetch price for GOOG: No connection"),
     [CallTicker "GOOG"]).
Proof.
  apply (realtime_ticker_failure yf_down " goog " (LibraryError "No connection") []).
  reflexivity.
Defined.

(** X4: [get_realtime_stock_price] ends in one of three ways only: the price
    sentence for the normalized symbol; a ValueError carrying the message of
    the failure to make the ticker; or, when the ticker was made and
    neither the quote fields nor a history gave a price, the ValueError
    "Could not fetch price".  What reading the quote fields or a history
    raises never reaches the caller. *)
Theorem realtime_outcomes (yf : YFinance) (symbol : string) (log : list Call) :
  let sym := upper (strip symbol) in
  let outcome := fst (get_realtime_stock_price yf symbol log) in
  (exists p, outcome = Ok (price_message sym p))
  \/ (exists e, yf sym = Raise e
        /\ outcome = Raise (ValueError (fetch_error_message sym (str_exn e))))
  \/ (exists stock, yf sym = Ok stock
        /\ quote_silent stock
        /\ history_unavailable stock "1m" /\ history_unavailable stock "5m"
        /\ outcome = Raise (ValueError (unavailable_message sym))).
Proof.
  cbv zeta. destruct (yf (upper (strip symbol))) as [stock|e] eqn:Hyf.
  - rewrite (get_realtime_stock_price_run yf symbol stock log Hyf). cbv zeta.
    destruct (quote_value stock) as [p|] eqn:Q; [left; now exists p|].
    destruct (last_close (history stock "1d" "1m")) as [p|] eqn:H1;
      [left; now exists p|].
    destruct (last_close (history stock "1d" "5m")) as [p|] eqn:H5;
      [left; now exists p|].
    right. right. exists stock. split; [reflexivity|].
    split; [now apply quote_silent_value|].
    assert (Hu : forall interval,
               last_close (history stock "1d" interval) = None ->
               history_unavailable stock interval).
    { intros interval H. unfold history_unavailable, last_close in *.
      destruct (history stock "1d" interval) as [hist|e]; [|left; now exists e].
      right. destruct hist as [|s hist]; [reflexivity|].
      destruct (rev (s :: hist)) as [|s' r] eqn:E; [|discriminate].
      apply (f_equal (@List.length _)) in E. rewrite length_rev in E.
      discriminate. }
    auto.
  - right. left. exists e. split; [reflexivity|].
    now rewrite (realtime_ticker_failure yf symbol e log Hyf).
Qed.

Lemma repeat_info_calls (stock : Ticker) :
  exists n, quote_calls stock = repeat CallInfo n /\ 1 <= n <= 3.
Proof.
  unfold quote_calls. destruct (info stock) as [fields|e].
  - destruct (truthy (info_get fields "regularMarketPrice"));
      [exists 1; split; [reflexivity|lia]|].
    destruct (truthy (info_get fields "currentPrice"));
      [exists 2|exists 3]; split; (reflexivity || lia).
  - exists 1. split; [reflexivity|lia].
Qed.

(** X5: one run of [get_realtime_stock_price] makes the ticker once, reads
    the quote fields at most three times, then asks for no history, for the
    one-minute history, or for the one-minute and then the five-minute
    history, always of the period 1d; and when it raises although the ticker
    was made, both histories have been asked for. *)
Theorem realtime_call_footprint (yf : YFinance) (symbol : string)
  (log : list Call) :
  let sym := upper (strip symbol) in
  exists n histories,
    snd (get_realtime_stock_price yf symbol log)
    = (log ++ CallTicker sym :: repeat CallInfo n ++ histories)%list
    /\ n <= 3
    /\ (histories = [] \/ histories = [CallHistory "1d" "1m"]
        \/ histories = [CallHistory "1d" "1m"; CallHistory "1d" "5m"])
    /\ (forall e, fst (get_realtime_stock_price yf symbol log) = Raise e ->
        (n = 0 /\ histories = [])
        \/ histories = [CallHistory "1d" "1m"; CallHistory "1d" "5m"]).
Proof.
  cbv zeta. destruct (yf (upper (strip symbol))) as [stock|e] eqn:Hyf.
  - rewrite (get_realtime_stock_price_run yf symbol stock log Hyf). cbv zeta.
    destruct (repeat_info_calls stock) as [n [-> Hn]]. exists n.
    destruct (quote_value stock) as [p|].
    { exists []. rewrite app_nil_r. repeat split; try lia; [tauto|discriminate]. }
    destruct (last_close (history stock "1d" "1m")) as [p|].
    { exists [history_1m]. repeat split; try lia; [tauto|discriminate]. }
    exists [history_1m; history_5m].
    destruct (last_close (history stock "1d" "5m")) as [p|];
      repeat split; try lia; tauto.
  - rewrite (realtime_ticker_failure yf symbol e log Hyf).
    exists 0, []. repeat split; try lia; tauto.
Qed.

Lemma realtime_call_footprint_witness :
  exists n histories,
    snd (get_realtime_stock_price (yf_of silent_ticker) "msft" [])
    = (CallTicker "MSFT" :: repeat CallInfo n ++ histories)%list
    /\ histories = [CallHistory "1d" "1m"; CallHistory "1d" "5m"].
Proof.
  destruct (realtime_call_footprint (yf_of silent_ticker) "msft" [])
    as [n [h [E [_ [_ Hr]]]]].
  exists n, h. split; [exact E|].
  destruct (Hr (ValueError (unavailable_message "MSFT")) eq_refl) as [[Hn Hh]|Hh];
    [|exact Hh].
  subst. vm_compute in E. discriminate E.
Defined.

(** ** Normalizing the symbol *)

Lemma is_space_upper_char (c : ascii) : is_space (upper_char c) = is_space c.
Proof. destruct c as [[] [] [] [] [] [] [] []]; reflexivity. Qed.

Lemma lstrip_upper (s : string) : lstrip (upper s) = upper (lstrip s).
Proof.
  induction s as [|c s IH]; simpl; [reflexivity|].
  rewrite is_space_upper_char. now destruct (is_space c).
Qed.

Lemma rstrip_upper (s : string) : rstrip (upper s) = upper (rstrip s).
Proof.
  induction s as [|c s IH]; simpl; [reflexivity|].
  rewrite IH, is_space_upper_char.
  destruct (rstrip s); simpl; [now destruct (is_space c)|reflexivity].
Qed.

Lemma strip_upper (s : string) : strip (upper s) = upper (strip s).
Proof. unfold strip. now rewrite lstrip_upper, rstrip_upper. Qed.

Lemma rstrip_idempotent (s : string) : rstrip (rstrip s) = rstrip s.
Proof.
  induction s as [|c s IH]; simpl; [reflexivity|].
  destruct (rstrip s) as [|a r] eqn:E.
  - destruct (is_space c) eqn:Hc; simpl; [reflexivity|now rewrite Hc].
  - cbn [rstrip]. cbn [rstrip] in IH. now rewrite IH.
Qed.

Lemma strip_idempotent (s : string) : strip (strip s) = strip s.
Proof.
  unfold strip. destruct (rstrip (lstrip s)) as [|c r] eqn:E; [reflexivity|].
  destruct (rstrip_head _ _ _ E) as [s'' Hl].
  pose proof (lstrip_head _ _ _ Hl) as Hc.
  cbn [lstrip]. rewrite Hc, <- E. apply rstrip_idempotent.
Qed.

(** X6: the symbol is looked up without regard to case or to whitespace
    around it: trimming it, uppercasing it, or both, before the call changes
    nothing, and the trimming of the wrapper is one of these. *)
Theorem realtime_symbol_normalization (yf : YFinance) (symbol : string)
  (log : list Call) :
  get_realtime_stock_price yf (strip symbol) log
  = get_realtime_stock_price yf symbol log
  /\ get_realtime_stock_price yf (upper symbol) log
     = get_realtime_stock_price yf symbol log
  /\ get_realtime_stock_price yf (upper (strip symbol)) log
     = get_realtime_stock_price yf symbol log
  /\ get_realtime_stock_price_wrapped yf symbol log
     = try_except (get_realtime_stock_price yf symbol)
         (fun e => ret ("Error getting real-time price: " ++ str_exn e)) log.
Proof.
  assert (H1 : upper (strip (strip symbol)) = upper (strip symbol))
    by now rewrite strip_idempotent.
  assert (H2 : upper (strip (upper symbol)) = upper (strip symbol))
    by now rewrite strip_upper, upper_idempotent.
  assert (H3 : upper (strip (upper (strip symbol))) = upper (strip symbol))
    by now rewrite strip_upper, upper_idempotent, strip_idempotent.
  unfold get_realtime_stock_price_wrapped, try_except, get_realtime_stock_price.
  cbv zeta. now rewrite H1, H2, H3.
Qed.

(** ** The outcomes of [get_historical_stock_price] *)

Lemma length_dict_set {K V : Type} (eqb : K -> K -> bool) (k : K) (v : V)
  (d : list (K * V)) :
  List.length d <= List.length (dict_set eqb k v d) <= S (List.length d).
Proof.
  induction d as [|[k1 v1] d IH]; simpl; [lia|].
  destruct (eqb k k1); simpl; lia.
Qed.

Lemma length_dict_comprehension {A K V : Type} (eqb : K -> K -> bool)
  (kf : A -> K) (vf : A -> V) (l : list A) :
  List.length (dict_comprehension eqb kf vf l) <= List.length l.
Proof.
  induction l as [|x l IH] using rev_ind; [simpl; lia|].
  rewrite dict_comprehension_snoc, length_app. simpl.
  pose proof (length_dict_set eqb (kf x) (vf x) (dict_comprehension eqb kf vf l)).
  lia.
Qed.

Lemma format_data_nonempty (hist : History) :
  hist <> [] -> 1 <= List.length (format_data (to_dict hist)).
Proof.
  intro H.
  assert (Hn : format_data (to_dict hist) <> [])
    by (apply comprehension_nonempty; now apply comprehension_nonempty).
  destruct (format_data (to_dict hist)); [congruence|simpl; lia].
Qed.

(** X7: [get_historical_stock_price] ends in one of four ways only: what
    making the ticker raised, unchanged, after that one call; what the
    history call raised, unchanged; the ValueError "No historical data" for
    an empty frame; or the serialized record, with at least one data point.
    It makes the ticker with the symbol as given and asks for the history at
    most once. *)
Theorem historical_outcomes (yf : YFinance) (json_dumps : HistResult -> string)
  (symbol period interval : string) (log : list Call) :
  let run := get_historical_stock_price yf json_dumps symbol period interval log in
  (exists e, yf symbol = Raise e
     /\ run = (Raise e, (log ++ [CallTicker symbol])%list))
  \/ (exists stock e, yf symbol = Ok stock
        /\ history stock period interval = Raise e
        /\ run = (Raise e,
                  (log ++ [CallTicker symbol; CallHistory period interval])%list))
  \/ (exists stock, yf symbol = Ok stock
        /\ history stock period interval = Ok []
        /\ run = (Raise (ValueError (no_data_message symbol period interval)),
                  (log ++ [CallTicker symbol; CallHistory period interval])%list))
  \/ (exists stock hist r, yf symbol = Ok stock
        /\ history stock period interval = Ok hist /\ hist <> []
        /\ run = (Ok (json_dumps r),
                  (log ++ [CallTicker symbol; CallHistory period interval])%list)
        /\ data r = format_data (to_dict hist)
        /\ 1 <= data_points r <= List.length hist).
Proof.
  cbv zeta. destruct (yf symbol) as [stock|e] eqn:Hyf.
  2:{ left. exists e. split; [reflexivity|].
      unfold get_historical_stock_price, try_except, bind, call, raise.
      now rewrite Hyf. }
  right. destruct (history stock period interval) as [hist|e] eqn:Hh.
  2:{ left. exists stock, e. split; [reflexivity|]. split; [exact Hh|].
      unfold get_historical_stock_price, try_except, bind, call, raise.
      rewrite Hyf, Hh. now rewrite <- app_assoc. }
  right. destruct hist as [|s hist].
  { left. exists stock. split; [reflexivity|]. split; [exact Hh|].
    unfold get_historical_stock_price, try_except, bind, call, raise.
    rewrite Hyf, Hh. simpl. now rewrite <- app_assoc. }
  right.
  destruct (get_historical_stock_price_run yf json_dumps symbol period interval
              stock (s :: hist) log Hyf Hh ltac:(discriminate))
    as [fd [ld [fp [lp [_ [_ [_ [_ Run]]]]]]]].
  eexists stock, (s :: hist), _. split; [reflexivity|]. split; [exact Hh|].
  split; [discriminate|]. split; [exact Run|]. cbn [data data_points].
  split; [reflexivity|]. split.
  - apply format_data_nonempty. discriminate.
  - etransitivity; [apply length_dict_comprehension|].
    apply length_dict_comprehension.
Qed.

Lemma last_In_or {A : Type} (R : A -> A -> Prop) (l : list A) (d : A) :
  StronglySorted R l ->
  forall x, In x l -> x = last l d \/ R x (last l d).
Proof.
  induction l as [|y l IH]; intros H x Hx; [destruct Hx|].
  apply StronglySorted_inv in H. destruct H as [H1 H2].
  rewrite Forall_forall in H2. destruct l as [|z l].
  - destruct Hx as [<-|[]]. now left.
  - change (last (y :: z :: l) d) with (last (z :: l) d).
    destruct Hx as [<-|Hx]; [|now apply IH].
    right. apply H2.
    destruct (@exists_last _ (z :: l) ltac:(discriminate)) as [l' [a E]].
    rewrite E, last_last. rewrite in_app_iff. right. now left.
Qed.

Lemma date_le_isoformat (a b : Timestamp) :
  valid_date (ts_date a) -> valid_date (ts_date b) ->
  a = b \/ ts_leb a b = true ->
  String.leb (isoformat (ts_date a)) (isoformat (ts_date b)) = true.
Proof.
  intros Ha Hb [->|H]; [apply string_leb_refl|].
  rewrite string_leb_ltb. apply orb_true_iff.
  apply ts_leb_cases in H. destruct H as [H| ->].
  - apply ts_ltb_date in H. destruct H as [H|E].
    + left. now rewrite isoformat_ltb.
    + right. rewrite E. apply String.eqb_refl.
  - right. apply String.eqb_refl.
Qed.

Lemma sample_key (hist : History) (s : Timestamp * Q) :
  In s hist -> In (isoformat (sample_date s)) (keys (format_data (to_dict hist))).
Proof.
  intro H. apply format_data_keys. exists (sample_date s).
  split; [|reflexivity]. apply to_dict_dates. now apply in_map.
Qed.

Lemma find_last_last {A : Type} (p : A -> bool) (l : list A) (d : A) :
  l <> [] -> p (last l d) = true -> find_last p l = Some (last l d).
Proof.
  intros Hne Hp. destruct (exists_last Hne) as [l' [a E]]. subst l.
  rewrite last_last in *. now rewrite find_last_snoc, Hp.
Qed.

(** X8: for a series in chronological order, [first_date] is the date of
    its first row and [last_date] the date of its last row; [last_price] is
    the rounded close of the last row, and [first_price] the rounded close
    of the last row that falls on the first date, which is not the first row
    when that date has several. *)
Theorem historical_first_and_last (yf : YFinance)
  (json_dumps : HistResult -> string) (symbol period interval : string)
  (stock : Ticker) (s0 : Timestamp * Q) (rest : History) (log : list Call) :
  yf symbol = Ok stock ->
  history stock period interval = Ok (s0 :: rest) ->
  valid_history (s0 :: rest) ->
  chronological (s0 :: rest) ->
  exists r,
    get_historical_stock_price yf json_dumps symbol period interval log
    = (Ok (json_dumps r),
       (log ++ [CallTicker symbol; CallHistory period interval])%list)
    /\ first_date r = isoformat (sample_date s0)
    /\ last_date r = isoformat (sample_date (last rest s0))
    /\ last_price r = round2 (snd (last rest s0))
    /\ Some (first_price r)
       = option_map (fun s => round2 (snd s))
           (last_sample_on (sample_date s0) (s0 :: rest)).
Proof.
  intros Hyf Hh Hv Hc. set (hist := s0 :: rest) in *.
  assert (Hlast : last hist s0 = last rest s0)
    by (unfold hist; destruct rest; reflexivity).
  destruct (get_historical_stock_price_run yf json_dumps symbol period interval
              stock hist log Hyf Hh ltac:(discriminate))
    as [fd [ld [fp [lp [Emin [Emax [Lfp [Llp Run]]]]]]]].
  eexists. split; [exact Run|].
  cbn [first_date last_date first_price last_price].
  assert (Hk : keys (format_data (to_dict hist)) <> []).
  { pose proof (sample_key hist s0 (or_introl eq_refl)) as H.
    destruct (keys (format_data (to_dict hist))); [destruct H|discriminate]. }
  destruct (py_min_spec _ Hk) as [fd' [Emin' [Hfd Hmin]]].
  destruct (py_max_spec _ Hk) as [ld' [Emax' [Hld Hmax]]].
  rewrite Emin in Emin'. injection Emin' as <-.
  rewrite Emax in Emax'. injection Emax' as <-.
  pose proof Hv as Hv'. unfold valid_history in Hv'.
  rewrite Forall_forall in Hv'.
  assert (Hs0 : In s0 hist) by now left.
  assert (Hsl : In (last hist s0) hist).
  { destruct (@exists_last _ hist ltac:(discriminate)) as [l' [a E]].
    rewrite E, last_last, in_app_iff. right. now left. }
  assert (Efd : fd = isoformat (sample_date s0)).
  { apply String.leb_antisym; [apply Hmin; now apply sample_key|].
    apply format_data_keys in Hfd. destruct Hfd as [d [Hd ->]].
    apply -> to_dict_dates in Hd. apply in_map_iff in Hd.
    destruct Hd as [s [<- Hs]]. apply date_le_isoformat; try now apply Hv'.
    destruct Hs as [<-|Hs]; [now left|]. right.
    apply StronglySorted_inv in Hc. destruct Hc as [_ Hc].
    rewrite Forall_forall in Hc. now apply Hc. }
  assert (Eld : ld = isoformat (sample_date (last hist s0))).
  { apply String.leb_antisym; [|apply Hmax; now apply sample_key].
    apply format_data_keys in Hld. destruct Hld as [d [Hd ->]].
    apply -> to_dict_dates in Hd. apply in_map_iff in Hd.
    destruct Hd as [s [<- Hs]]. apply date_le_isoformat; try now apply Hv'.
    destruct (last_In_or _ hist s0 Hc s Hs) as [E|H]; [left; now rewrite E|now right]. }
  assert (Ho : ordered_or_distinct hist) by now left.
  rewrite <- Hlast. split; [exact Efd|]. split; [exact Eld|]. split.
  - rewrite Eld, (format_data_lookup hist _ Hv (Hv' _ Hsl) Ho) in Llp.
    unfold last_sample_on in Llp.
    rewrite (find_last_last _ hist s0) in Llp;
      [now injection Llp|discriminate|now apply date_eqb_eq].
  - rewrite <- Lfp, Efd. now apply format_data_lookup; [|apply Hv'|].
Qed.

Lemma historical_first_and_last_witness :
  exists r,
    get_historical_stock_price yf_intraday show_result "aapl" "2d" "1h" []
    = (Ok (show_result r), [CallTicker "aapl"; CallHistory "2d" "1h"])
    /\ first_date r = "2024-01-02" /\ last_date r = "2024-01-03"
    /\ last_price r = (18433 # 100)%Q
    /\ Some (first_price r) = Some (18600 # 100)%Q.
Proof.
  destruct (historical_first_and_last yf_intraday show_result "aapl" "2d" "1h"
              (ticker_of [] intraday_history)
              (ts 2024 1 2 34200, 1855 # 10)
              [(ts 2024 1 2 37800, 186 # 1); (ts 2024 1 3 34200, 18425 # 100);
               (ts 2024 1 3 37800, 184333 # 1000)] []
              eq_refl eq_refl
              ltac:(repeat constructor; simpl; lia)
              ltac:(repeat constructor))
    as [r [Run [Hf [Hl [Hlp Hfp]]]]].
  exists r. repeat split; assumption.
Defined.

(** X9: no date of the series is lost: under the ISO text of the date of
    every row, [data] holds the rounded close of a row of that date; and
    when no two rows fall on the same date there are as many data points as
    rows. *)
Theorem historical_every_date_kept (yf : YFinance)
  (json_dumps : HistResult -> string) (symbol period interval : string)
  (stock : Ticker) (hist : History) (log : list Call) :
  yf symbol = Ok stock ->
  history stock period interval = Ok hist ->
  hist <> [] ->
  valid_history hist ->
  exists r,
    get_historical_stock_price yf json_dumps symbol period interval log
    = (Ok (json_dumps r),
       (log ++ [CallTicker symbol; CallHistory period interval])%list)
    /\ (forall s, In s hist ->
          exists s', In s' hist /\ sample_date s' = sample_date s
            /\ dict_lookup String.eqb (isoformat (sample_date s)) (data r)
               = Some (round2 (snd s')))
    /\ (NoDup (map sample_date hist) -> data_points r = List.length hist).
Proof.
  intros Hyf Hh Hne Hv.
  destruct (get_historical_stock_price_run yf json_dumps symbol period interval
              stock hist log Hyf Hh Hne)
    as [fd [ld [fp [lp [_ [_ [_ [_ Run]]]]]]]].
  eexists. split; [exact Run|]. cbn [data data_points]. split.
  - intros s Hs.
    destruct (dict_getitem_key _ _ (sample_key hist s Hs)) as [v [_ L]].
    pose proof (dict_lookup_Some_In String.eqb String.eqb_eq _ _ _ L) as Hin.
    apply format_data_entries in Hin. destruct Hin as [_ [_ [s' [Hs' [E ->]]]]].
    exists s'. split; [exact Hs'|]. split; [|exact L].
    unfold valid_history in Hv. rewrite Forall_forall in Hv.
    symmetry. now apply isoformat_injective; [apply Hv|apply Hv|].
  - intro Hn. rewrite (format_data_length hist Hv). unfold distinct_dates.
    now rewrite nodup_fixed_point, length_map.
Qed.

Lemma historical_every_date_kept_witness :
  exists r,
    get_historical_stock_price yf_daily show_result "aapl" "1mo" "1d" []
    = (Ok (show_result r), [CallTicker "aapl"; CallHistory "1mo" "1d"])
    /\ data_points r = 3.
Proof.
  destruct (historical_every_date_kept yf_daily show_result "aapl" "1mo" "1d"
              (ticker_of [] daily_history) daily_history [] eq_refl eq_refl
              ltac:(discriminate) ltac:(repeat constructor; simpl; lia))
    as [r [Run [_ Hn]]].
  exists r. split; [exact Run|]. apply Hn.
  repeat constructor; simpl; intuition discriminate.
Defined.

Lemma NoDup_all_equal {A : Type} (l : list A) (x : A) :
  NoDup l -> (forall y, In y l -> y = x) -> List.length l <= 1.
Proof.
  intros Hn Ha. destruct l as [|a [|b l]]; simpl; try lia.
  exfalso. inversion Hn as [|? ? Hna _]; subst. apply Hna.
  rewrite (Ha a), (Ha b); simpl; auto.
Qed.

(** X10: in every record [first_date] is not after [last_date], and the two
    are equal exactly when there is one data point. *)
Theorem historical_single_date (yf : YFinance)
  (json_dumps : HistResult -> string) (symbol period interval : string)
  (stock : Ticker) (hist : History) (log : list Call) :
  yf symbol = Ok stock ->
  history stock period interval = Ok hist ->
  hist <> [] ->
  exists r,
    get_historical_stock_price yf json_dumps symbol period interval log
    = (Ok (json_dumps r),
       (log ++ [CallTicker symbol; CallHistory period interval])%list)
    /\ String.leb (first_date r) (last_date r) = true
    /\ (first_date r = last_date r <-> data_points r = 1)
    /\ (first_date r = last_date r -> first_price r = last_price r).
Proof.
  intros Hyf Hh Hne.
  destruct (get_historical_stock_price_run yf json_dumps symbol period interval
              stock hist log Hyf Hh Hne)
    as [fd [ld [fp [lp [Emin [Emax [Lfp [Llp Run]]]]]]]].
  eexists. split; [exact Run|].
  cbn [first_date last_date first_price last_price data_points].
  pose proof (format_data_nonempty hist Hne) as Hlen.
  rewrite <- (length_map fst) in Hlen. fold (keys (format_data (to_dict hist))) in Hlen.
  assert (Hk : keys (format_data (to_dict hist)) <> [])
    by (destruct (keys (format_data (to_dict hist))); [simpl in Hlen; lia|discriminate]).
  destruct (py_min_spec _ Hk) as [fd' [Emin' [Hfd Hmin]]].
  destruct (py_max_spec _ Hk) as [ld' [Emax' [Hld Hmax]]].
  rewrite Emin in Emin'. injection Emin' as <-.
  rewrite Emax in Emax'. injection Emax' as <-.
  split; [now apply Hmin|]. split; [split|].
  - intros E. subst ld.
    assert (H1 : List.length (keys (format_data (to_dict hist))) <= 1).
    { apply (NoDup_all_equal _ fd).
      - apply (NoDup_keys_comprehension String.eqb String.eqb_eq).
      - intros k Hk'. apply String.leb_antisym; [now apply Hmax|now apply Hmin]. }
    unfold keys in *. rewrite length_map in *. lia.
  - intro H1. rewrite <- (length_map fst) in H1.
    fold (keys (format_data (to_dict hist))) in H1.
    destruct (keys (format_data (to_dict hist))) as [|k [|k' l]];
      try discriminate.
    destruct Hfd as [<-|[]]. now destruct Hld as [<-|[]].
  - intros E. subst ld. rewrite Lfp in Llp. now injection Llp.
Qed.

Lemma historical_single_date_witness :
  exists r,
    get_historical_stock_price yf_intraday show_result "aapl" "2d" "1h" []
    = (Ok (show_result r), [CallTicker "aapl"; CallHistory "2d" "1h"])
    /\ String.leb (first_date r) (last_date r) = true
    /\ (first_date r = last_date r <-> data_points r = 1).
Proof.
  destruct (historical_single_date yf_intraday show_result "aapl" "2d" "1h"
              (ticker_of [] intraday_history) intraday_history []
              eq_refl eq_refl ltac:(discriminate))
    as [r [Run [Hle [Hiff _]]]].
  exists r. split; [exact Run|]. split; [exact Hle|exact Hiff].
Defined.

(** ** The input of the historical tool *)

Lemma concat_cons_char (sep : string) (c : ascii) (hd : string)
  (tl : list string) :
  String.concat sep (String c hd :: tl) = String c (String.concat sep (hd :: tl)).
Proof. destruct tl; reflexivity. Qed.

Lemma split_not_free (sep : ascii) (s : string) :
  Forall (fun part => count_char sep part = 0) (split sep s).
Proof.
  induction s as [|c s IH]; simpl; [now repeat constructor|].
  destruct (Ascii.eqb c sep) eqn:E; [now constructor|].
  destruct (split sep s) as [|hd tl]; [repeat constructor; simpl; now rewrite E|].
  inversion IH; subst. constructor; [simpl; now rewrite E|assumption].
Qed.

Lemma split_free_prefix (sep : ascii) (a rest : string) :
  count_char sep a = 0 ->
  split sep (a ++ String sep rest) = a :: split sep rest.
Proof.
  induction a as [|c a IH]; simpl.
  - intros _. now rewrite Ascii.eqb_refl.
  - destruct (Ascii.eqb c sep); [discriminate|]. intro H. now rewrite IH.
Qed.

Lemma split_free (sep : ascii) (a : string) :
  count_char sep a = 0 -> split sep a = [a].
Proof.
  induction a as [|c a IH]; simpl; [reflexivity|].
  destruct (Ascii.eqb c sep); [discriminate|]. intro H. now rewrite IH.
Qed.

(** X11: splitting on commas loses nothing and leaves no comma: joining the
    parts with commas gives the input back, no part holds a comma, and
    parts without a comma that are joined with commas are what the split
    gives back. *)
Theorem split_join_round_trip (input_str : string) (parts : list string) :
  String.concat "," (split "," input_str) = input_str
  /\ Forall comma_free (split "," input_str)
  /\ (parts <> [] -> Forall comma_free parts ->
      split "," (String.concat "," parts) = parts).
Proof.
  split; [|split].
  - induction input_str as [|c s IH]; [reflexivity|]. simpl split.
    destruct (Ascii.eqb_spec c ",") as [->|N].
    + destruct (split "," s) as [|hd tl] eqn:E;
        [now apply split_nonempty in E|].
      change (String "," (String.concat "," (hd :: tl)) = String "," s).
      now rewrite IH.
    + destruct (split "," s) as [|hd tl] eqn:E;
        [now apply split_nonempty in E|].
      now rewrite concat_cons_char, IH.
  - apply split_not_free.
  - intros Hne Hf. induction Hf as [|a l Ha Hl IH]; [congruence|].
    destruct l as [|b l]; [now apply split_free|].
    change (String.concat "," (a :: b :: l))
      with (a ++ String "," (String.concat "," (b :: l))).
    rewrite split_free_prefix by exact Ha. now rewrite IH.
Qed.

Lemma split_join_round_trip_witness :
  split "," (String.concat "," ["AAPL"; " 1mo"; EmptyString]) = ["AAPL"; " 1mo"; EmptyString].
Proof.
  apply (proj2 (proj2 (split_join_round_trip EmptyString ["AAPL"; " 1mo"; EmptyString]))).
  - discriminate.
  - repeat constructor.
Defined.

Lemma try_except_ret_log {A : Type} (body : M A) (f : exn -> A) (log : list Call) :
  snd (try_except body (fun e => ret (f e)) log) = snd (body log).
Proof. unfold try_except, ret. now destruct (body log) as [[a|e] log']. Qed.

(** The calls of [get_historical_stock_price], whatever it ends in. *)
Lemma get_historical_stock_price_calls (yf : YFinance)
  (json_dumps : HistResult -> string) (symbol period interval : string)
  (log : list Call) :
  snd (get_historical_stock_price yf json_dumps symbol period interval log)
  = (log ++ CallTicker symbol
         :: match yf symbol with
            | Raise _ => []
            | Ok _ => [CallHistory period interval]
            end)%list.
Proof.
  destruct (yf symbol) as [stock|e] eqn:Hyf.
  2:{ unfold get_historical_stock_price, try_except, bind, call, raise.
      now rewrite Hyf. }
  destruct (history stock period interval) as [[|s hist]|e] eqn:Hh.
  - unfold get_historical_stock_price, try_except, bind, call, raise.
    rewrite Hyf, Hh. simpl. now rewrite <- app_assoc.
  - destruct (get_historical_stock_price_run yf json_dumps symbol period
                interval stock (s :: hist) log Hyf Hh ltac:(discriminate))
      as [fd [ld [fp [lp [_ [_ [_ [_ ->]]]]]]]].
    reflexivity.
  - unfold get_historical_stock_price, try_except, bind, call, raise.
    rewrite Hyf, Hh. simpl. now rewrite <- app_assoc.
Qed.

(** X12: the historical tool asks the data source exactly when its input has
    two commas: then the ticker is made for the trimmed first part, whatever
    it is, and, unless that raises, the history is asked for once with the
    trimmed second and third parts as period and interval; with any other
    number of commas no call is made. *)
Theorem historical_wrapper_reaches_source (yf : YFinance)
  (json_dumps : HistResult -> string) (input_str : string) (log : list Call) :
  (count_char "," input_str = 2 ->
   exists a b c calls,
     split "," input_str = [a; b; c]
     /\ snd (get_historical_stock_price_wrapped yf json_dumps input_str log)
        = (log ++ CallTicker (strip a) :: calls)%list
     /\ ((calls = [] /\ exists e, yf (strip a) = Raise e)
         \/ calls = [CallHistory (strip b) (strip c)]))
  /\ (count_char "," input_str <> 2 ->
      snd (get_historical_stock_price_wrapped yf json_dumps input_str log) = log).
Proof.
  pose proof (split_length "," input_str) as Hl.
  unfold get_historical_stock_price_wrapped. rewrite try_except_ret_log.
  split; intro Hc.
  - destruct (split "," input_str) as [|a [|b [|c [|d l]]]]; simpl in Hl; try lia.
    exists a, b, c. cbv beta iota.
    rewrite get_historical_stock_price_calls.
    destruct (yf (strip a)) as [stock|e]; eexists;
      (split; [reflexivity|]); (split; [reflexivity|]).
    + now right.
    + left. split; [reflexivity|]. now exists e.
  - destruct (split "," input_str) as [|a [|b [|c [|d l]]]]; simpl in Hl;
      try reflexivity. lia.
Qed.

Lemma historical_wrapper_reaches_source_witness :
  (exists a b c calls,
     split "," ",," = [a; b; c]
     /\ snd (get_historical_stock_price_wrapped yf_down show_result ",," [])
        = (CallTicker (strip a) :: calls)%list
     /\ ((calls = [] /\ exists e, yf_down (strip a) = Raise e)
         \/ calls = [CallHistory (strip b) (strip c)]))
  /\ snd (get_historical_stock_price_wrapped yf_down show_result "AAPL 1mo 1d" [])
     = [].
Proof.
  split.
  - apply (proj1 (historical_wrapper_reaches_source yf_down show_result ",," [])).
    reflexivity.
  - apply (proj2 (historical_wrapper_reaches_source yf_down show_result
                    "AAPL 1mo 1d" [])).
    simpl. lia.
Defined.

(** ** The client *)

(** X13: [test_stock_api] never lets a RequestException out: whichever of
    the post, the status check and the decoding raises one, the result is
    the dictionary with the single key [error] and the message; an
    exception of another class is raised unchanged, and a body is returned
    only when none of the three raised. *)
Theorem test_stock_api_outcomes (post : Requests) (endpoint query : string) :
  (forall msg, test_stock_api post endpoint query <> Raised (RequestException msg))
  /\ (forall msg,
        send_query post endpoint query = Raised (RequestException msg) ->
        test_stock_api post endpoint query = Returned [("error", VStr msg)])
  /\ (forall msg,
        send_query post endpoint query = Raised (OtherException msg) ->
        test_stock_api post endpoint query = Raised (OtherException msg))
  /\ (forall body,
        test_stock_api post endpoint query = Returned body ->
        (exists msg, body = [("error", VStr msg)]
                     /\ send_query post endpoint query
                        = Raised (RequestException msg))
        \/ (exists response, post endpoint query = Returned response
              /\ raise_for_status response = None
              /\ json response = Returned body)).
Proof.
  unfold test_stock_api.
  split; [|split; [|split]].
  - intros msg. destruct (send_query post endpoint query) as [b|[m|m]];
      discriminate.
  - intros msg ->. reflexivity.
  - intros msg ->. reflexivity.
  - intros body. unfold send_query.
    destruct (post endpoint query) as [response|[m|m]]; try discriminate.
    + destruct (raise_for_status response) as [[m|m]|] eqn:Hs;
        try discriminate.
      * intros [= <-]. left. now exists m.
      * destruct (json response) as [b|[m|m]] eqn:Hj; try discriminate.
        -- intros [= <-]. right. now exists response.
        -- intros [= <-]. left. now exists m.
    + intros [= <-]. left. now exists m.
Qed.

Lemma test_stock_api_outcomes_witness :
  test_stock_api post_unreachable "https://example.test/query" "price of AAPL"
  = Returned [("error", VStr "Connection refused")]
  /\ test_stock_api post_rejected "https://example.test/query" "price of AAPL"
     = Returned [("error", VStr "500 Server Error")].
Proof.
  split.
  - apply (proj1 (proj2 (test_stock_api_outcomes post_unreachable
                           "https://example.test/query" "price of AAPL"))).
    reflexivity.
  - apply (proj1 (proj2 (test_stock_api_outcomes post_rejected
                           "https://example.test/query" "price of AAPL"))).
    reflexivity.
Defined.

Lemma process_query_shape (py : Builtins) (invoke : PyDict -> M PyDict)
  (query : Query) (body : PyDict) (log log' : list Call) :
  process_query py invoke query log = (Ok body, log') ->
  exists v, body = [("response", v)].
Proof.
  unfold process_query, try_except, bind, dict_mem, lift, pydict_getitem, ret,
    raise.
  destruct (invoke [("input", VStr (text query))] log) as [[response|e] l];
    [|discriminate].
  destruct (dict_lookup String.eqb "output" response) as [a|].
  { intros [= <- _]. now exists a. }
  destruct (dict_lookup String.eqb "error" response) as [a|];
    intros [= <- _]; eexists; reflexivity.
Qed.

(** X14: what [process_query] returns has the one key [response], so when
    the server's answer reaches the client as it is, the dictionary that
    [test_stock_api] returns has the key [error] only if a RequestException
    was raised on the way. *)
Theorem client_error_key (py : Builtins) (invoke : PyDict -> M PyDict)
  (query : Query) (served : PyDict) (log log' : list Call)
  (post : Requests) (endpoint : string) (response : Response) :
  process_query py invoke query log = (Ok served, log') ->
  post endpoint (text query) = Returned response ->
  json response = Returned served ->
  forall result,
    test_stock_api post endpoint (text query) = Returned result ->
    (dict_mem String.eqb "error" served = false)
    /\ (dict_mem String.eqb "error" result = true <->
        exists msg, raise_for_status response = Some (RequestException msg)).
Proof.
  intros Hp Hpost Hjson result Hr.
  destruct (process_query_shape py invoke query served log log' Hp) as [v ->].
  split; [reflexivity|].
  unfold test_stock_api, send_query in Hr. rewrite Hpost, Hjson in Hr.
  destruct (raise_for_status response) as [[m|m]|].
  - injection Hr as <-. split; [intros _; now exists m|intros _; reflexivity].
  - discriminate.
  - injection Hr as <-. split; [discriminate|]. intros [m H]. discriminate.
Qed.

Lemma client_error_key_witness :
  dict_mem String.eqb "error"
    [("response", VStr "Error: quota exceeded")] = false.
Proof.
  apply (proj1
    (client_error_key py_sample invoke_error {| text := "How is AAPL doing?" |}
       [("response", VStr "Error: quota exceeded")] [] []
       (fun _ _ =>
          Returned {| raise_for_status := None;
                      json := Returned [("response", VStr "Error: quota exceeded")] |})
       "https://example.test/query"
       {| raise_for_status := None;
          json := Returned [("response", VStr "Error: quota exceeded")] |}
       eq_refl eq_refl eq_refl
       [("response", VStr "Error: quota exceeded")] eq_refl)).
Defined.

(** ** The order of the data *)

Section FirstOccurrences.

Context {A : Type} (eqb : A -> A -> bool).
Hypothesis eqb_eq : forall a b, eqb a b = true <-> a = b.

Lemma first_occurrences_In (l : list A) (x : A) :
  In x (first_occurrences eqb l) <-> In x l.
Proof.
  induction l as [|y l IH]; simpl; [reflexivity|].
  rewrite filter_In, IH, negb_true_iff. split.
  - tauto.
  - intros [->|H]; [now left|].
    destruct (eqb y x) eqn:E; [left; now apply eqb_eq|tauto].
Qed.

Lemma existsb_In (l : list A) (x : A) :
  existsb (eqb x) l = true <-> In x l.
Proof.
  rewrite existsb_exists. split.
  - intros [y [Hy E]]. apply eqb_eq in E. now subst.
  - intro H. exists x. split; [exact H|now apply eqb_eq].
Qed.

Lemma first_occurrences_snoc (l : list A) (x : A) :
  first_occurrences eqb (l ++ [x])
  = if existsb (eqb x) l then first_occurrences eqb l
    else (first_occurrences eqb l ++ [x])%list.
Proof.
  induction l as [|y l IH]; simpl; [reflexivity|].
  rewrite IH. destruct (eqb x y) eqn:Exy; simpl.
  - apply eqb_eq in Exy. subst y.
    destruct (existsb (eqb x) l); [reflexivity|].
    rewrite filter_app. simpl.
    rewrite (proj2 (eqb_eq x x) eq_refl). simpl. now rewrite app_nil_r.
  - destruct (existsb (eqb x) l); [reflexivity|].
    rewrite filter_app. simpl.
    destruct (eqb y x) eqn:Eyx; [|reflexivity].
    apply eqb_eq in Eyx. subst y.
    rewrite (proj2 (eqb_eq x x) eq_refl) in Exy. discriminate.
Qed.

End FirstOccurrences.

Lemma bool_eq_iff (a b : bool) : (a = true <-> b = true) -> a = b.
Proof. destruct a, b; intuition congruence. Qed.

(** The keys of a comprehension are the keys of the elements in the order in
    which each first occurs. *)
Lemma keys_comprehension_order {A K V : Type} (eqb : K -> K -> bool)
  (eqb_eq : forall a b, eqb a b = true <-> a = b)
  (kf : A -> K) (vf : A -> V) (l : list A) :
  keys (dict_comprehension eqb kf vf l) = first_occurrences eqb (map kf l).
Proof.
  induction l as [|x l IH] using rev_ind; [reflexivity|].
  rewrite dict_comprehension_snoc, keys_dict_set, map_app.
  simpl map. rewrite (first_occurrences_snoc eqb eqb_eq), IH.
  replace (dict_mem eqb (kf x) (dict_comprehension eqb kf vf l))
    with (existsb (eqb (kf x)) (map kf l)); [reflexivity|].
  apply bool_eq_iff.
  now rewrite (existsb_In eqb eqb_eq), (dict_mem_In eqb eqb_eq),
    (keys_comprehension_In eqb eqb_eq).
Qed.

Lemma first_occurrences_map {A B : Type} (eqa : A -> A -> bool)
  (eqb : B -> B -> bool)
  (eqa_eq : forall a b, eqa a b = true <-> a = b)
  (eqb_eq : forall a b, eqb a b = true <-> a = b)
  (h : A -> B) (l : list A) :
  first_occurrences eqb (map h (first_occurrences eqa l))
  = first_occurrences eqb (map h l).
Proof.
  induction l as [|x l IH] using rev_ind; [reflexivity|].
  rewrite (first_occurrences_snoc eqa eqa_eq), map_app. simpl map.
  rewrite (first_occurrences_snoc eqb eqb_eq).
  destruct (existsb (eqa x) l) eqn:E.
  - rewrite IH. apply (existsb_In eqa eqa_eq) in E.
    now rewrite (proj2 (existsb_In eqb eqb_eq (map h l) (h x)) (in_map h l x E)).
  - rewrite map_app. simpl map.
    rewrite (first_occurrences_snoc eqb eqb_eq), IH.
    replace (existsb (eqb (h x)) (map h (first_occurrences eqa l)))
      with (existsb (eqb (h x)) (map h l)); [reflexivity|].
    apply bool_eq_iff. rewrite !(existsb_In eqb eqb_eq), !in_map_iff.
    split; intros [y [Ey Hy]]; exists y; (split; [exact Ey|]);
      now apply (first_occurrences_In eqa eqa_eq).
Qed.

(** X15: the record is never sorted: the keys of [data] are the ISO dates of
    the rows in the order in which each date first occurs in the series,
    whatever the order of the rows. *)
Theorem historical_order_of_first_occurrence (yf : YFinance)
  (json_dumps : HistResult -> string) (symbol period interval : string)
  (stock : Ticker) (hist : History) (log : list Call) :
  yf symbol = Ok stock ->
  history stock period interval = Ok hist ->
  hist <> [] ->
  exists r,
    get_historical_stock_price yf json_dumps symbol period interval log
    = (Ok (json_dumps r),
       (log ++ [CallTicker symbol; CallHistory period interval])%list)
    /\ keys (data r) = first_occurrences String.eqb (map sample_key_text hist).
Proof.
  intros Hyf Hh Hne.
  destruct (get_historical_stock_price_run yf json_dumps symbol period interval
              stock hist log Hyf Hh Hne)
    as [fd [ld [fp [lp [_ [_ [_ [_ Run]]]]]]]].
  eexists. split; [exact Run|]. cbn [data].
  unfold format_data. rewrite (keys_comprehension_order String.eqb String.eqb_eq).
  assert (E : map (fun kv : Timestamp * Q => isoformat (ts_date (fst kv)))
                (to_dict hist)
              = map (fun t => isoformat (ts_date t)) (keys (to_dict hist))).
  { unfold keys. now rewrite map_map. }
  rewrite E. unfold to_dict.
  rewrite (keys_comprehension_order ts_eqb ts_eqb_eq).
  rewrite (first_occurrences_map ts_eqb String.eqb ts_eqb_eq String.eqb_eq).
  now rewrite map_map.
Qed.

Lemma historical_order_of_first_occurrence_witness :
  exists r,
    get_historical_stock_price (yf_of (ticker_of [] unordered_history))
      show_result "aapl" "5d" "1d" []
    = (Ok (show_result r), [CallTicker "aapl"; CallHistory "5d" "1d"])
    /\ keys (data r) = ["2024-01-04"; "2024-01-02"; "2024-01-03"].
Proof.
  destruct (historical_order_of_first_occurrence
              (yf_of (ticker_of [] unordered_history)) show_result
              "aapl" "5d" "1d" (ticker_of [] unordered_history)
              unordered_history [] eq_refl eq_refl ltac:(discriminate))
    as [r [Run Hk]].
  exists r. split; [exact Run|]. rewrite Hk. reflexivity.
Defined.
